(** * wipe: secure file deletion (encrypt, 35-pass overwrite, scrub, remove)

    A shallow embedding of [wipe.go] and the properties of its
    encrypt -> overwrite -> scrub -> remove pipeline.

    The Go code talks to the operating system ([os], [os.File],
    [crypto/rand], [math/rand], [time]).  The embedding is parametric in an
    [OS] handler: every call of the program goes through it, is answered by
    it, and is recorded in a log together with the status lines the program
    emits.  Control-flow properties are proved for every handler; properties
    about file contents and timestamps are proved for [MemFS], an in-memory
    file system with injectable faults. *)

From Stdlib Require Import ZArith Lia Strings.Byte String DecimalString.
From stdpp Require Import base list strings gmap.

Module Wipe.

Local Open Scope Z_scope.

(** ** Go values *)

(** A Go [error], identified with its message. *)
Definition error := string.

(** A Go [(value, err)] result pair. *)
Inductive res (A : Type) : Type :=
| Ok (a : A)
| Err (e : error).
Arguments Ok {A} a.
Arguments Err {A} e.

Definition res_err {A} (r : res A) : option error :=
  match r with Ok _ => None | Err e => Some e end.

(** How a Go computation ends: it returns, it panics, or the model has run
    out of fuel (every unbounded [for] loop consumes fuel). *)
Inductive outcome (A : Type) : Type :=
| Ret (a : A)
| Panic (msg : string)
| OutOfFuel.
Arguments Ret {A} a.
Arguments Panic {A} msg.
Arguments OutOfFuel {A}.

(** [ends o P Q]: the computation returned a value that satisfies [P], or it
    panicked and [Q] holds; it did not run out of fuel. *)
Definition ends {A} (o : outcome A) (P : A -> Prop) (Q : Prop) : Prop :=
  match o with
  | Ret a => P a
  | Panic _ => Q
  | OutOfFuel => False
  end.

Definition obind {A B} (o : outcome A) (k : A -> outcome B) : outcome B :=
  match o with
  | Ret a => k a
  | Panic msg => Panic msg
  | OutOfFuel => OutOfFuel
  end.

(** [time.Time] as Unix nanoseconds, [time.Duration] as nanoseconds. *)
Definition Time := Z.
Definition Duration := Z.
Definition Second : Duration := 1000000000.
Definition Millisecond : Duration := 1000000.
Definition time_Unix (sec nsec : Z) : Time := sec * 1000000000 + nsec.

(** [os.FileInfo], the two fields the program reads. *)
Record FileInfo := mkFileInfo { Size : Z; ModTime : Time }.

(** An open [*os.File]. *)
Definition File := nat.

Definition O_WRONLY : Z := 1.
Definition O_TRUNC : Z := 512.

(** [%d] of [fmt.Sprintf]. *)
Definition dec (z : Z) : string := NilZero.string_of_int (Z.to_int z).

(** Go's [int64] wrap-around. *)
Definition wrap64 (z : Z) : Z :=
  (z + 2 ^ 63) mod 2 ^ 64 - 2 ^ 63.

(** ** Constants (wipe.go 24-27) *)

Definition BlockSize : Z := 64 * 1024.
Definition ProgressUpdateInterval : Z := 5.

(** ** bytesRepeat (wipe.go 64-70)

    [result] starts empty with capacity [size] ([make] panics on a negative
    capacity); the loop appends the whole pattern while [len(result) < size];
    the result is cut to [size]. *)

Fixpoint bytesRepeat_loop (fuel : nat) (pattern : list byte) (size : Z)
    (result : list byte) : outcome (list byte) :=
  match fuel with
  | O => OutOfFuel
  | S fuel' =>
      if Z.of_nat (length result) <? size
      then bytesRepeat_loop fuel' pattern size (result ++ pattern)
      else Ret (take (Z.to_nat size) result)
  end.

Definition bytesRepeat (fuel : nat) (pattern : list byte) (size : Z)
  : outcome (list byte) :=
  if size <? 0 then Panic "makeslice: cap out of range"
  else bytesRepeat_loop fuel pattern size [].

(** [min] and [max] (wipe.go 82-95). *)
Definition min (a b : Z) : Z := if a <? b then a else b.
Definition max (a b : Z) : Z := if a >? b then a else b.

(** The pattern tiled cyclically and cut to [n] bytes: what one pattern
    leaves in a file of [n] bytes, and what [bytesRepeat] computes. *)
Fixpoint tile_from (pattern cur : list byte) (n : nat) : list byte :=
  match n with
  | O => []
  | S n' =>
      match cur with
      | b :: cur' => b :: tile_from pattern cur' n'
      | [] =>
          match pattern with
          | [] => []
          | b :: cur' => b :: tile_from pattern cur' n'
          end
      end
  end.

Definition tile (pattern : list byte) (n : nat) : list byte :=
  tile_from pattern pattern n.

(** ** The operating system as seen by the program *)

Inductive call : Type :=
| Stat (path : string)
| ReadFile (path : string)
| WriteFile (path : string) (data : list byte) (perm : Z)
| Chtimes (path : string) (atime mtime : Time)
| OpenFile (path : string) (flag perm : Z)
| Rename (oldpath newpath : string)
| Remove (path : string)
| FStat (f : File)
| Seek (f : File) (offset whence : Z)
| Write (f : File) (data : list byte)
| Sync (f : File)
| Close (f : File)
| CryptoRead (n : nat)
| Int63n (n : Z)
| Now
| Sleep (d : Duration).

(** What the program leaves behind: its calls with their error results, the
    lines appended to the status label, the values put in the progress
    label. *)
Inductive event : Type :=
| Called (c : call) (err : option error)
| Status (msg : string)
| Progress (msg : string).

(** The handler.  Each operation takes the world to an answer and a new
    world. *)
Class OS (W : Type) : Type := {
  os_Stat : string -> W -> res FileInfo * W;
  os_ReadFile : string -> W -> res (list byte) * W;
  os_WriteFile : string -> list byte -> Z -> W -> option error * W;
  os_Chtimes : string -> Time -> Time -> W -> option error * W;
  os_OpenFile : string -> Z -> Z -> W -> res File * W;
  os_Rename : string -> string -> W -> option error * W;
  os_Remove : string -> W -> option error * W;
  file_Stat : File -> W -> res FileInfo * W;
  file_Seek : File -> Z -> Z -> W -> res Z * W;
  file_Write : File -> list byte -> W -> option error * W;
  file_Sync : File -> W -> option error * W;
  file_Close : File -> W -> option error * W;
  cryptorand_Read : nat -> W -> res (list byte) * W;
  rand_Int63n : Z -> W -> Z * W;
  time_Now : W -> Time * W;
  time_Sleep : Duration -> W -> W
}.

(** Pure library functions the program calls and this file leaves open:
    AES-GCM sealing (key, nonce, plaintext to ciphertext and tag),
    [filepath.Dir], and the rounding and printing of a [time.Duration]. *)
Class Lib : Type := {
  gcm_Seal : list byte -> list byte -> list byte -> list byte;
  filepath_Dir : string -> string;
  Duration_Round : Duration -> Duration -> Duration;
  Duration_String : Duration -> string
}.

(** The receiver of the methods: the wiper and its key (wipe.go 30-35; the
    labels and the window are the status and progress events). *)
Record AdvancedWiper := mkWiper { encryptionKey : list byte }.

(** A computation: from a world to an outcome, the world it leaves and the
    events it emitted. *)
Definition M (W A : Type) : Type := W -> outcome A * W * list event.

Section Program.
Context {W : Type}.

Definition ret {A} (a : A) : M W A := fun s => (Ret a, s, []).

Definition bind {A B} (m : M W A) (k : A -> M W B) : M W B :=
  fun s =>
    match m s with
    | (Ret a, s1, l1) =>
        match k a s1 with
        | (o, s2, l2) => (o, s2, l1 ++ l2)
        end
    | (Panic msg, s1, l1) => (Panic msg, s1, l1)
    | (OutOfFuel, s1, l1) => (OutOfFuel, s1, l1)
    end.

Definition lift {A} (o : outcome A) : M W A := fun s => (o, s, []).
Definition panic {A} (msg : string) : M W A := lift (Panic msg).

(** [defer cleanup]: the cleanup runs when the body returns or panics. *)
Definition defer {A} (cleanup : M W unit) (body : M W A) : M W A :=
  fun s =>
    match body s with
    | (OutOfFuel, s1, l1) => (OutOfFuel, s1, l1)
    | (o, s1, l1) =>
        match cleanup s1 with
        | (Ret _, s2, l2) => (o, s2, l1 ++ l2)
        | (Panic msg, s2, l2) => (Panic msg, s2, l1 ++ l2)
        | (OutOfFuel, s2, l2) => (OutOfFuel, s2, l1 ++ l2)
        end
    end.

Definition outcome_of {A} (r : outcome A * W * list event) : outcome A := r.1.1.
Definition world_of {A} (r : outcome A * W * list event) : W := r.1.2.
Definition log_of {A} (r : outcome A * W * list event) : list event := r.2.

End Program.

Notation "'let*' x ':=' m 'in' k" := (bind m (fun x => k))
  (at level 10, x pattern, m at level 100, k at level 200).
Notation "m ';;' k" := (bind m (fun _ => k))
  (at level 100, k at level 200, right associativity).

Section Calls.
Context {W : Type} {os : OS W}.

Definition answered {A} (c : call) (h : W -> A * W) (err : A -> option error)
  : M W A :=
  fun s => let (r, s') := h s in (Ret r, s', [Called c (err r)]).

Definition do_Stat (path : string) : M W (res FileInfo) :=
  answered (Stat path) (os_Stat path) res_err.
Definition do_ReadFile (path : string) : M W (res (list byte)) :=
  answered (ReadFile path) (os_ReadFile path) res_err.
Definition do_WriteFile (path : string) (data : list byte) (perm : Z)
  : M W (option error) :=
  answered (WriteFile path data perm) (os_WriteFile path data perm) id.
Definition do_Chtimes (path : string) (atime mtime : Time) : M W (option error) :=
  answered (Chtimes path atime mtime) (os_Chtimes path atime mtime) id.
Definition do_OpenFile (path : string) (flag perm : Z) : M W (res File) :=
  answered (OpenFile path flag perm) (os_OpenFile path flag perm) res_err.
Definition do_Rename (oldpath newpath : string) : M W (option error) :=
  answered (Rename oldpath newpath) (os_Rename oldpath newpath) id.
Definition do_Remove (path : string) : M W (option error) :=
  answered (Remove path) (os_Remove path) id.
Definition do_FStat (f : File) : M W (res FileInfo) :=
  answered (FStat f) (file_Stat f) res_err.
Definition do_Seek (f : File) (offset whence : Z) : M W (res Z) :=
  answered (Seek f offset whence) (file_Seek f offset whence) res_err.
Definition do_Write (f : File) (data : list byte) : M W (option error) :=
  answered (Write f data) (file_Write f data) id.
Definition do_Sync (f : File) : M W (option error) :=
  answered (Sync f) (file_Sync f) id.
Definition do_Close (f : File) : M W (option error) :=
  answered (Close f) (file_Close f) id.

(** [cryptorand.Read(b)] fills [b] in place: whatever the source supplies,
    the buffer keeps its length (bytes not supplied stay zero). *)
Definition do_CryptoRead (n : nat) : M W (res (list byte)) :=
  answered (CryptoRead n)
    (fun s =>
       match cryptorand_Read n s with
       | (Ok data, s') => (Ok (resize n x00 data), s')
       | (Err e, s') => (Err e, s')
       end)
    res_err.
Definition do_Int63n (n : Z) : M W Z :=
  answered (Int63n n) (rand_Int63n n) (fun _ => None).
Definition do_Now : M W Time :=
  answered Now time_Now (fun _ => None).
Definition do_Sleep (d : Duration) : M W unit :=
  answered (Sleep d) (fun s => (tt, time_Sleep d s)) (fun _ => None).

End Calls.

(** ** The program *)

Section Source.
Context {W : Type} {os : OS W} {lib : Lib}.

(** [updateStatus] and [updateProgress] (wipe.go 98-111): the status label
    grows by one line, the progress label is replaced. *)
Definition updateStatus (w : AdvancedWiper) (message : string) : M W unit :=
  fun s => (Ret tt, s, [Status message]).

Definition updateProgress (w : AdvancedWiper) (message : string) : M W unit :=
  fun s => (Ret tt, s, [Progress message]).

(** [randomBytes] (wipe.go 73-79). *)
Definition randomBytes (size : Z) : M W (list byte) :=
  if size <? 0 then panic "makeslice: len out of range"
  else
    let* r := do_CryptoRead (Z.to_nat size) in
    match r with
    | Err e => panic ("Cannot generate random bytes: " +:+ e)
    | Ok data => ret data
    end.

(** [aes.NewCipher] accepts keys of 16, 24 and 32 bytes; [cipher.NewGCM] on
    an AES block always succeeds; the standard nonce has 12 bytes. *)
Definition aes_NewCipher (key : list byte) : res (list byte) :=
  let n := Z.of_nat (length key) in
  if (n =? 16) || (n =? 24) || (n =? 32) then Ok key
  else Err ("crypto/aes: invalid key size " +:+ dec n).

Definition cipher_NewGCM (block : list byte) : res (list byte) := Ok block.

Definition gcm_NonceSize : Z := 12.

(** [encryptFile] (wipe.go 147-185). *)
Definition encryptFile (w : AdvancedWiper) (path : string) : M W (option error) :=
  updateStatus w "🔐 Encrypting file before deletion...";;
  let* st := do_Stat path in
  match st with
  | Err err => ret (Some err)
  | Ok fileInfo =>
  let* rd := do_ReadFile path in
  match rd with
  | Err err => ret (Some err)
  | Ok originalData =>
  match aes_NewCipher (encryptionKey w) with
  | Err err => ret (Some ("AES cipher creation failed: " +:+ err))
  | Ok block =>
  match cipher_NewGCM block with
  | Err err => ret (Some ("GCM creation failed: " +:+ err))
  | Ok gcm =>
  let* rn := do_CryptoRead (Z.to_nat gcm_NonceSize) in
  match rn with
  | Err err => ret (Some ("Nonce generation failed: " +:+ err))
  | Ok nonce =>
  let encrypted := nonce ++ gcm_Seal gcm nonce originalData in
  let* werr := do_WriteFile path encrypted 384 in
  match werr with
  | Some err => ret (Some err)
  | None => do_Chtimes path (ModTime fileInfo) (ModTime fileInfo)
  end end end end end end.

(** [overwritePass] (wipe.go 257-271).  [bytesWritten] never exceeds
    [fileSize], so the [int64] arithmetic cannot wrap. *)
Fixpoint overwritePass_loop (fuel : nat) (file : File) (pattern : list byte)
    (fileSize bytesWritten : Z) : M W (option error) :=
  match fuel with
  | O => lift OutOfFuel
  | S fuel' =>
      if bytesWritten <? fileSize then
        let writeSize := min (Z.of_nat (length pattern)) (fileSize - bytesWritten) in
        let* werr := do_Write file (take (Z.to_nat writeSize) pattern) in
        match werr with
        | Some err => ret (Some err)
        | None =>
            overwritePass_loop fuel' file pattern fileSize (bytesWritten + writeSize)
        end
      else ret None
  end.

Definition overwritePass (fuel : nat) (w : AdvancedWiper) (file : File)
    (pattern : list byte) (fileSize : Z) : M W (option error) :=
  let* sk := do_Seek file 0 0 in
  match sk with
  | Err err => ret (Some err)
  | Ok _ => overwritePass_loop fuel file pattern fileSize 0
  end.

(** The pattern table of [gutmannWipe] (wipe.go 205-222): eleven fixed
    entries, then random blocks while the table has fewer than 35. *)
Definition gutmannFixed (fuel : nat) : outcome (list (list byte)) :=
  obind (Ret (replicate (Z.to_nat BlockSize) x00)) (fun p0 =>
  obind (bytesRepeat fuel [xff] BlockSize) (fun p1 =>
  obind (bytesRepeat fuel [x55] BlockSize) (fun p2 =>
  obind (bytesRepeat fuel [xaa] BlockSize) (fun p3 =>
  obind (bytesRepeat fuel [x92; x49; x24] (BlockSize ÷ 3 + 1)) (fun p4 =>
  obind (bytesRepeat fuel [x49; x24; x92] (BlockSize ÷ 3 + 1)) (fun p5 =>
  obind (bytesRepeat fuel [x24; x92; x49] (BlockSize ÷ 3 + 1)) (fun p6 =>
  obind (bytesRepeat fuel [x00] BlockSize) (fun p7 =>
  obind (bytesRepeat fuel [xff] BlockSize) (fun p8 =>
  obind (bytesRepeat fuel [x55] BlockSize) (fun p9 =>
  obind (bytesRepeat fuel [xaa] BlockSize) (fun p10 =>
  Ret [p0; p1; p2; p3; p4; p5; p6; p7; p8; p9; p10]))))))))))).

Fixpoint gutmannFill (fuel : nat) (patterns : list (list byte))
  : M W (list (list byte)) :=
  match fuel with
  | O => lift OutOfFuel
  | S fuel' =>
      if Z.of_nat (length patterns) <? 35 then
        let* block := randomBytes BlockSize in
        gutmannFill fuel' (patterns ++ [block])
      else ret patterns
  end.

Definition gutmannPatterns (fuel : nat) : M W (list (list byte)) :=
  let* patterns := lift (gutmannFixed fuel) in
  gutmannFill fuel patterns.

(** The progress report of one pass (wipe.go 238-249). *)
Definition reportProgress (w : AdvancedWiper) (startTime : Time) (n i : Z)
  : M W unit :=
  if (Z.rem (i + 1) ProgressUpdateInterval =? 0) || (i =? 0) || (i =? n - 1)
  then
    let progress := (i + 1) * 100 ÷ n in
    let* now := do_Now in
    let elapsed := now - startTime in
    let estimatedTotal := wrap64 (elapsed * n) ÷ (i + 1) in
    let remaining := wrap64 (estimatedTotal - elapsed) in
    updateProgress w
      ("🔄 Progress: " +:+ dec progress +:+ "% (Pass " +:+ dec (i + 1)
       +:+ "/35) Elapsed: " +:+ Duration_String (Duration_Round elapsed Second)
       +:+ " Remaining: ~" +:+ Duration_String (Duration_Round remaining Second));;
    do_Sleep (10 * Millisecond)
  else ret tt.

(** The pass loop of [gutmannWipe] (wipe.go 227-250): [rest] holds the
    patterns from index [i] on, [n] is [len(patterns)]. *)
Fixpoint gutmannPasses (fuel : nat) (w : AdvancedWiper) (file : File)
    (fileSize : Z) (startTime : Time) (n i : Z) (rest : list (list byte))
  : M W (option error) :=
  match rest with
  | [] => ret None
  | pattern :: rest' =>
      let* perr := overwritePass fuel w file pattern fileSize in
      match perr with
      | Some err => ret (Some ("Pass " +:+ dec (i + 1) +:+ " failed: " +:+ err))
      | None =>
          let* serr := do_Sync file in
          match serr with
          | Some err =>
              updateStatus w ("⚠️ Sync warning pass " +:+ dec (i + 1) +:+ ": " +:+ err)
          | None => ret tt
          end;;
          reportProgress w startTime n i;;
          gutmannPasses fuel w file fileSize startTime n (i + 1) rest'
      end
  end.

(** [gutmannWipe] (wipe.go 188-254). *)
Definition gutmannWipe (fuel : nat) (w : AdvancedWiper) (path : string)
  : M W (option error) :=
  let* op := do_OpenFile path O_WRONLY 0 in
  match op with
  | Err err => ret (Some err)
  | Ok file =>
  defer (do_Close file;; ret tt) (
  let* st := do_FStat file in
  match st with
  | Err err => ret (Some err)
  | Ok info =>
  let fileSize := Size info in
  updateStatus w ("📊 File size: " +:+ dec fileSize +:+ " bytes");;
  updateStatus w ("🔧 Using " +:+ dec (BlockSize ÷ 1024) +:+ "KB blocks for optimization");;
  let* patterns := gutmannPatterns fuel in
  updateStatus w "🔁 Starting Gutmann 35-pass wiping procedure";;
  let* startTime := do_Now in
  let* perr :=
    gutmannPasses fuel w file fileSize startTime
      (Z.of_nat (length patterns)) 0 patterns in
  match perr with
  | Some err => ret (Some err)
  | None => updateProgress w "";; ret None
  end end)
  end.

(** [wipeMetadata] (wipe.go 274-288): [n] is the number of iterations left
    of [for i := 0; i < 7; i++]. *)
Fixpoint wipeMetadata_loop (n : nat) (w : AdvancedWiper) (path : string)
    (i : Z) : M W unit :=
  match n with
  | O => ret tt
  | S n' =>
      let* r := do_Int63n 2000000000 in
      let randomTime := time_Unix r 0 in
      let* cerr := do_Chtimes path randomTime randomTime in
      match cerr with
      | Some err =>
          updateStatus w
            ("⚠️ Metadata change " +:+ dec (i + 1) +:+ " failed: " +:+ err)
      | None => ret tt
      end;;
      wipeMetadata_loop n' w path (i + 1)
  end.

Definition wipeMetadata (w : AdvancedWiper) (path : string) : M W (option error) :=
  updateStatus w "📊 Obfuscating metadata...";;
  wipeMetadata_loop 7 w path 0;;
  let* atime := do_Now in
  let* mtime := do_Now in
  do_Chtimes path atime mtime.

(** [platformSpecificFreeSpaceWipe] and [wipeFreeSpaceNoTemp]
    (wipe.go 291-308). *)
Definition platformSpecificFreeSpaceWipe (w : AdvancedWiper) (dir : string)
  : M W (option error) :=
  updateStatus w "🔧 Using platform-optimized free space wiping...";;
  ret None.

Definition wipeFreeSpaceNoTemp (w : AdvancedWiper) (dir : string)
  : M W (option error) :=
  updateStatus w "🗑️ Wiping free space";;
  let* ferr := platformSpecificFreeSpaceWipe w dir in
  match ferr with
  | Some err => updateStatus w ("⚠️ Free space wipe failed: " +:+ err)
  | None => ret tt
  end;;
  ret None.

(** The rename loop of [secureRemove] (wipe.go 317-324): [n] is the number
    of iterations left of [for i := 0; i < 3; i++]; the result is [path]
    after the loop. *)
Fixpoint secureRemove_renames (n : nat) (w : AdvancedWiper) (path : string)
    (i : Z) : M W string :=
  match n with
  | O => ret path
  | S n' =>
      let newPath := path +:+ ".wipe" +:+ dec i in
      let* rerr := do_Rename path newPath in
      match rerr with
      | Some err =>
          updateStatus w
            ("⚠️ Rename attempt " +:+ dec (i + 1) +:+ " failed: " +:+ err);;
          ret path
      | None => secureRemove_renames n' w newPath (i + 1)
      end
  end.

(** [secureRemove] (wipe.go 311-346). *)
Definition secureRemove (w : AdvancedWiper) (path : string) : M W (option error) :=
  updateStatus w "🔒 Performing final secure removal...";;
  let originalPath := path in
  let* path := secureRemove_renames 3 w path 0 in
  let* op := do_OpenFile path (Z.lor O_WRONLY O_TRUNC) 0 in
  match op with
  | Ok file => do_Close file;; ret tt
  | Err err => updateStatus w ("⚠️ Truncation failed: " +:+ err)
  end;;
  let* rmerr := do_Remove path in
  match rmerr with
  | Some err =>
      if bool_decide (originalPath <> path) then
        let* err2 := do_Remove originalPath in
        match err2 with
        | None =>
            updateStatus w "✅ Removed original file after rename failure";;
            ret None
        | Some _ => ret (Some ("Final removal failed: " +:+ err))
        end
      else ret (Some ("Final removal failed: " +:+ err))
  | None => ret None
  end.

(** [SecureDeleteAdvanced] (wipe.go 114-144). *)
Definition SecureDeleteAdvanced (fuel : nat) (w : AdvancedWiper) (path : string)
  : M W (option error) :=
  updateStatus w ("🚀 Starting advanced secure deletion for: " +:+ path);;
  let* e1 := encryptFile w path in
  match e1 with
  | Some err => ret (Some ("Encryption failed: " +:+ err))
  | None =>
  let* e2 := gutmannWipe fuel w path in
  match e2 with
  | Some err => ret (Some ("Overwriting failed: " +:+ err))
  | None =>
  let* e3 := wipeMetadata w path in
  match e3 with
  | Some err => updateStatus w ("⚠️ Metadata wiping failed: " +:+ err)
  | None => ret tt
  end;;
  let* e4 := wipeFreeSpaceNoTemp w (filepath_Dir path) in
  match e4 with
  | Some err => updateStatus w ("⚠️ Free-space wiping failed: " +:+ err)
  | None => ret tt
  end;;
  let* e5 := secureRemove w path in
  match e5 with
  | Some err => ret (Some ("Final removal failed: " +:+ err))
  | None =>
  updateStatus w "✅ Advanced secure deletion completed!";;
  ret None
  end end end.

End Source.

(** ** MemFS: an in-memory file system with injectable faults

    Files are named byte sequences with two timestamps; an open file is a
    path and an offset.  Before an operation takes effect the fault plan is
    asked, with the calls answered so far (latest first) and the call at
    hand: a fault makes the call fail with its error and without effect,
    except that a failing [Write] first writes the fault's prefix of its
    data. *)

Module MemFS.

Record inode := mkInode { data : list byte; atime : Time; mtime : Time }.

Record fault := mkFault { fault_err : error; fault_written : nat }.

Record world := mkWorld {
  files : gmap string inode;
  handles : gmap nat (string * Z);
  history : list call;
  faults : list call -> call -> option fault;
  entropy : nat -> byte;
  entropy_pos : nat;
  prng : nat -> Z;
  prng_pos : nat;
  clock : Time
}.

Definition set_files (fs : gmap string inode) (s : world) : world :=
  mkWorld fs (handles s) (history s) (faults s) (entropy s) (entropy_pos s)
    (prng s) (prng_pos s) (clock s).
Definition set_handles (hs : gmap nat (string * Z)) (s : world) : world :=
  mkWorld (files s) hs (history s) (faults s) (entropy s) (entropy_pos s)
    (prng s) (prng_pos s) (clock s).

(** Ask the fault plan and record the call. *)
Definition attempt (c : call) (s : world) : option fault * world :=
  (faults s (history s) c,
   mkWorld (files s) (handles s) (c :: history s) (faults s) (entropy s)
     (entropy_pos s) (prng s) (prng_pos s) (clock s)).

Definition ENOENT : error := "no such file or directory".
Definition EBADF : error := "bad file descriptor".
Definition EINVAL : error := "invalid argument".

Definition info_of (ino : inode) : FileInfo :=
  mkFileInfo (Z.of_nat (length (data ino))) (mtime ino).

(** [data] written at byte [off] of [old]: a gap is filled with zeros and
    the bytes beyond the written range stay. *)
Definition write_at (off : nat) (bytes old : list byte) : list byte :=
  resize off x00 old ++ bytes ++ drop (off + length bytes)%nat old.

Definition fresh_handle (hs : gmap nat (string * Z)) : nat :=
  S (foldr Nat.max 0%nat (elements (dom hs))).

Definition mem_Stat (path : string) (s : world) : res FileInfo * world :=
  match attempt (Stat path) s with
  | (Some f, s) => (Err (fault_err f), s)
  | (None, s) =>
      match files s !! path with
      | Some ino => (Ok (info_of ino), s)
      | None => (Err ENOENT, s)
      end
  end.

Definition mem_ReadFile (path : string) (s : world) : res (list byte) * world :=
  match attempt (ReadFile path) s with
  | (Some f, s) => (Err (fault_err f), s)
  | (None, s) =>
      match files s !! path with
      | Some ino => (Ok (data ino), s)
      | None => (Err ENOENT, s)
      end
  end.

Definition mem_WriteFile (path : string) (bytes : list byte) (perm : Z)
    (s : world) : option error * world :=
  match attempt (WriteFile path bytes perm) s with
  | (Some f, s) => (Some (fault_err f), s)
  | (None, s) =>
      let at_ := match files s !! path with
                 | Some ino => atime ino
                 | None => clock s
                 end in
      (None, set_files (<[path := mkInode bytes at_ (clock s)]> (files s)) s)
  end.

Definition mem_Chtimes (path : string) (a m : Time) (s : world)
  : option error * world :=
  match attempt (Chtimes path a m) s with
  | (Some f, s) => (Some (fault_err f), s)
  | (None, s) =>
      match files s !! path with
      | Some ino =>
          (None, set_files (<[path := mkInode (data ino) a m]> (files s)) s)
      | None => (Some ENOENT, s)
      end
  end.

Definition mem_OpenFile (path : string) (flag perm : Z) (s : world)
  : res File * world :=
  match attempt (OpenFile path flag perm) s with
  | (Some f, s) => (Err (fault_err f), s)
  | (None, s) =>
      match files s !! path with
      | Some ino =>
          let fd := fresh_handle (handles s) in
          let fs :=
            if Z.land flag O_TRUNC =? 0 then files s
            else <[path := mkInode [] (atime ino) (clock s)]> (files s) in
          (Ok fd, set_handles (<[fd := (path, 0)]> (handles s)) (set_files fs s))
      | None => (Err ENOENT, s)
      end
  end.

Definition mem_Rename (oldpath newpath : string) (s : world)
  : option error * world :=
  match attempt (Rename oldpath newpath) s with
  | (Some f, s) => (Some (fault_err f), s)
  | (None, s) =>
      match files s !! oldpath with
      | Some ino =>
          (None, set_files (<[newpath := ino]> (delete oldpath (files s))) s)
      | None => (Some ENOENT, s)
      end
  end.

Definition mem_Remove (path : string) (s : world) : option error * world :=
  match attempt (Remove path) s with
  | (Some f, s) => (Some (fault_err f), s)
  | (None, s) =>
      match files s !! path with
      | Some _ => (None, set_files (delete path (files s)) s)
      | None => (Some ENOENT, s)
      end
  end.

(** The file behind an open handle. *)
Definition opened (f : File) (s : world) : option (string * Z * inode) :=
  match handles s !! f with
  | Some (path, off) =>
      match files s !! path with
      | Some ino => Some (path, off, ino)
      | None => None
      end
  | None => None
  end.

Definition mem_FStat (f : File) (s : world) : res FileInfo * world :=
  match attempt (FStat f) s with
  | (Some ft, s) => (Err (fault_err ft), s)
  | (None, s) =>
      match opened f s with
      | Some (_, _, ino) => (Ok (info_of ino), s)
      | None => (Err EBADF, s)
      end
  end.

Definition mem_Seek (f : File) (offset whence : Z) (s : world) : res Z * world :=
  match attempt (Seek f offset whence) s with
  | (Some ft, s) => (Err (fault_err ft), s)
  | (None, s) =>
      match opened f s with
      | Some (path, off, ino) =>
          let target :=
            if whence =? 0 then offset
            else if whence =? 1 then off + offset
            else Z.of_nat (length (data ino)) + offset in
          if target <? 0 then (Err EINVAL, s)
          else (Ok target, set_handles (<[f := (path, target)]> (handles s)) s)
      | None => (Err EBADF, s)
      end
  end.

(** Put [bytes] at the offset of [f] and move the offset past them. *)
Definition put (f : File) (path : string) (off : Z) (ino : inode)
    (bytes : list byte) (s : world) : world :=
  set_handles (<[f := (path, off + Z.of_nat (length bytes))]> (handles s))
    (set_files
       (<[path := mkInode (write_at (Z.to_nat off) bytes (data ino))
                    (atime ino) (clock s)]> (files s)) s).

Definition mem_Write (f : File) (bytes : list byte) (s : world)
  : option error * world :=
  match attempt (Write f bytes) s with
  | (Some ft, s) =>
      match opened f s with
      | Some (path, off, ino) =>
          (Some (fault_err ft),
           put f path off ino (take (fault_written ft) bytes) s)
      | None => (Some (fault_err ft), s)
      end
  | (None, s) =>
      match opened f s with
      | Some (path, off, ino) => (None, put f path off ino bytes s)
      | None => (Some EBADF, s)
      end
  end.

Definition mem_Sync (f : File) (s : world) : option error * world :=
  match attempt (Sync f) s with
  | (Some ft, s) => (Some (fault_err ft), s)
  | (None, s) =>
      match handles s !! f with
      | Some _ => (None, s)
      | None => (Some EBADF, s)
      end
  end.

Definition mem_Close (f : File) (s : world) : option error * world :=
  match attempt (Close f) s with
  | (Some ft, s) => (Some (fault_err ft), s)
  | (None, s) =>
      match handles s !! f with
      | Some _ => (None, set_handles (delete f (handles s)) s)
      | None => (Some EBADF, s)
      end
  end.

Definition mem_CryptoRead (n : nat) (s : world) : res (list byte) * world :=
  match attempt (CryptoRead n) s with
  | (Some ft, s) => (Err (fault_err ft), s)
  | (None, s) =>
      (Ok (entropy s <$> seq (entropy_pos s) n),
       mkWorld (files s) (handles s) (history s) (faults s) (entropy s)
         (entropy_pos s + n)%nat (prng s) (prng_pos s) (clock s))
  end.

Definition mem_Int63n (n : Z) (s : world) : Z * world :=
  (prng s (prng_pos s) mod n,
   mkWorld (files s) (handles s) (Int63n n :: history s) (faults s) (entropy s)
     (entropy_pos s) (prng s) (S (prng_pos s)) (clock s)).

Definition mem_Now (s : world) : Time * world :=
  (clock s,
   mkWorld (files s) (handles s) (Now :: history s) (faults s) (entropy s)
     (entropy_pos s) (prng s) (prng_pos s) (clock s + 1)).

Definition mem_Sleep (d : Duration) (s : world) : world :=
  mkWorld (files s) (handles s) (Sleep d :: history s) (faults s) (entropy s)
    (entropy_pos s) (prng s) (prng_pos s) (clock s + d).

#[export] Instance memfs : OS world := {
  os_Stat := mem_Stat;
  os_ReadFile := mem_ReadFile;
  os_WriteFile := mem_WriteFile;
  os_Chtimes := mem_Chtimes;
  os_OpenFile := mem_OpenFile;
  os_Rename := mem_Rename;
  os_Remove := mem_Remove;
  file_Stat := mem_FStat;
  file_Seek := mem_Seek;
  file_Write := mem_Write;
  file_Sync := mem_Sync;
  file_Close := mem_Close;
  cryptorand_Read := mem_CryptoRead;
  rand_Int63n := mem_Int63n;
  time_Now := mem_Now;
  time_Sleep := mem_Sleep
}.

(** The content and the modification time of the file at [path]. *)
Definition content (path : string) (s : world) : option (list byte) :=
  data <$> files s !! path.
Definition modtime (path : string) (s : world) : option Time :=
  mtime <$> files s !! path.

(** The handle [f] is open on [path] at offset [off], and the file holds
    [bytes]. *)
Definition open_at (s : world) (f : File) (path : string) (off : Z)
    (bytes : list byte) : Prop :=
  handles s !! f = Some (path, off) /\ content path s = Some bytes.

(** A world with one file, no open handle and the given fault plan; the
    random source yields zeros and the clock shows 100. *)
Definition oneFile (path : string) (bytes : list byte) (modified : Time)
    (plan : list call -> call -> option fault) : world :=
  mkWorld {[ path := mkInode bytes modified modified ]} ∅ [] plan
    (fun _ => x00) 0 (fun _ => 0) 0 100.

Definition no_faults (h : list call) (c : call) : option fault := None.

(** The plan in which the [Write] that follows [n] earlier writes fails,
    after writing [written] bytes of its data. *)
Definition is_Write (c : call) : bool :=
  match c with Write _ _ => true | _ => false end.

Definition write_fails (n written : nat) (h : list call) (c : call)
  : option fault :=
  if is_Write c && (length (filter (fun c => is_Write c = true) h) =? n)%nat
  then Some (mkFault "input/output error" written)
  else None.

End MemFS.

(** ** Scripted: a stateless handler

    Whether a call fails is read off the call alone; a successful call
    answers with fixed values: a file of [size] bytes modified at time 1,
    zero bytes of randomness, the random number 0, the current time 2. *)

Definition scripted_err (fails : call -> option error) (c : call)
  : option error * unit := (fails c, tt).

Definition scripted_res {A} (fails : call -> option error) (c : call) (a : A)
  : res A * unit :=
  match fails c with
  | Some e => (Err e, tt)
  | None => (Ok a, tt)
  end.

Definition scripted (fails : call -> option error) (size : Z) : OS unit := {|
  os_Stat path _ := scripted_res fails (Stat path) (mkFileInfo size 1);
  os_ReadFile path _ :=
    scripted_res fails (ReadFile path) (replicate (Z.to_nat size) x00);
  os_WriteFile path bytes perm _ := scripted_err fails (WriteFile path bytes perm);
  os_Chtimes path a m _ := scripted_err fails (Chtimes path a m);
  os_OpenFile path flag perm _ := scripted_res fails (OpenFile path flag perm) 3%nat;
  os_Rename oldpath newpath _ := scripted_err fails (Rename oldpath newpath);
  os_Remove path _ := scripted_err fails (Remove path);
  file_Stat f _ := scripted_res fails (FStat f) (mkFileInfo size 1);
  file_Seek f offset whence _ := scripted_res fails (Seek f offset whence) offset;
  file_Write f bytes _ := scripted_err fails (Write f bytes);
  file_Sync f _ := scripted_err fails (Sync f);
  file_Close f _ := scripted_err fails (Close f);
  cryptorand_Read n _ := scripted_res fails (CryptoRead n) [];
  rand_Int63n n _ := (0, tt);
  time_Now _ := (2, tt);
  time_Sleep d _ := tt
|}.

(** The script in which setting the times to the current time fails and
    nothing else does. *)
Definition chtimes_now_fails (c : call) : option error :=
  match c with
  | Chtimes _ atime _ => if atime =? 2 then Some "operation not permitted" else None
  | _ => None
  end.

(** The script in which every sync fails and nothing else does. *)
Definition sync_fails (c : call) : option error :=
  match c with
  | Sync _ => Some "input/output error"
  | _ => None
  end.

(** Stand-ins for the open library functions, for closed examples: the
    sealed text is the plaintext followed by a 16-byte tag, so only its
    length is that of AES-GCM. *)
Definition plainLib : Lib := {|
  gcm_Seal key nonce plaintext := plaintext ++ replicate 16 x00;
  filepath_Dir path := path;
  Duration_Round d m := d;
  Duration_String d := dec d +:+ "ns"
|}.

(** ** Closed forms used in the statements *)

(** [l] is made of whole copies of [pattern]. *)
Definition copies (pattern l : list byte) : Prop :=
  (exists k, length l = (k * length pattern)%nat) /\
  forall j, (j < length l)%nat -> l !! j = pattern !! (j mod length pattern)%nat.

(** The eleven fixed entries in closed form. *)
Definition fixedPatterns : list (list byte) :=
  let block := Z.to_nat BlockSize in
  let third := Z.to_nat (BlockSize ÷ 3 + 1) in
  [ replicate block x00; tile [xff] block; tile [x55] block; tile [xaa] block;
    tile [x92; x49; x24] third; tile [x49; x24; x92] third;
    tile [x24; x92; x49] third;
    tile [x00] block; tile [xff] block; tile [x55] block; tile [xaa] block ].

(** The length of the entry at index [i] of the table. *)
Definition entryLength (i : nat) : Z :=
  if bool_decide (4 <= i <= 6)%nat then BlockSize ÷ 3 + 1 else BlockSize.

(** What an interrupted pass leaves: [m] bytes of [new], then the rest of
    [old]. *)
Definition mixed (new old : list byte) (m : nat) : list byte :=
  take m new ++ drop m old.

(** What a file of [n] bytes that held [cur] holds before pass [j]
    (counted from 0) of the patterns [rest]: [cur], or the pattern of the
    pass before, tiled. *)
Definition before_pass (rest : list (list byte)) (cur : list byte) (n j : nat)
  : list byte :=
  match j with
  | O => cur
  | S j' => tile (nth j' rest []) n
  end.

(** ** Closed examples *)

(** A wiper with a 32-byte key. *)
Definition zeroKeyWiper : AdvancedWiper := mkWiper (replicate 32 x00).

(** [gutmannWipe] on a MemFS with the single file [f] of the given content
    and the given fault plan. *)
Definition wipeOn (bytes : list byte) (plan : list call -> call -> option MemFS.fault)
  : outcome (option error) * MemFS.world * list event :=
  gutmannWipe (os := MemFS.memfs) (lib := plainLib) (S (Z.to_nat BlockSize))
    zeroKeyWiper "f" (MemFS.oneFile "f" bytes 42 plan).

(** Ten bytes, and the second write (that of pass 2) failing after 4 of
    them. *)
Definition abcdefghij : list byte :=
  [x61; x62; x63; x64; x65; x66; x67; x68; x69; x6a].

Definition interruptedRun := wipeOn abcdefghij (MemFS.write_fails 1 4).


(** ** Reading the log *)

Definition rename_calls (l : list event)
  : list (string * string * option error) :=
  omap (fun e => match e with
                 | Called (Rename a b) err => Some (a, b, err)
                 | _ => None
                 end) l.

Definition remove_calls (l : list event) : list (string * option error) :=
  omap (fun e => match e with
                 | Called (Remove a) err => Some (a, err)
                 | _ => None
                 end) l.

Definition write_calls (l : list event) : list (list byte * option error) :=
  omap (fun e => match e with
                 | Called (Write _ bytes) err => Some (bytes, err)
                 | _ => None
                 end) l.

(** The bytes handed to [Write], in order. *)
Definition written (l : list event) : list byte :=
  concat (write_calls l).*1.

Definition sync_calls (l : list event) : list (option error) :=
  omap (fun e => match e with
                 | Called (Sync _) err => Some err
                 | _ => None
                 end) l.

Definition seek_calls (l : list event) : list (Z * Z * option error) :=
  omap (fun e => match e with
                 | Called (Seek _ offset whence) err => Some (offset, whence, err)
                 | _ => None
                 end) l.

Definition statuses (l : list event) : list string :=
  omap (fun e => match e with
                 | Status msg => Some msg
                 | _ => None
                 end) l.

(** [e] is a [Write] of a prefix of [pattern] to [file]. *)
Definition is_chunk (file : File) (pattern : list byte) (e : event) : Prop :=
  exists n err, e = Called (Write file (take n pattern)) err.

Definition chtimes_calls (l : list event)
  : list (string * Time * Time * option error) :=
  omap (fun e => match e with
                 | Called (Chtimes path a m) err => Some (path, a, m, err)
                 | _ => None
                 end) l.

(** [e] is a read of the random source. *)
Definition is_random (e : event) : Prop :=
  exists n err, e = Called (CryptoRead n) err.

(** The warnings that the syncs of passes [i+1], [i+2], ... leave in the
    status label: one line for each sync that failed. *)
Fixpoint sync_warnings (i : Z) (syncs : list (option error)) : list string :=
  match syncs with
  | [] => []
  | serr :: rest =>
      match serr with
      | Some err => ["⚠️ Sync warning pass " +:+ dec (i + 1) +:+ ": " +:+ err]
      | None => []
      end ++ sync_warnings (i + 1) rest
  end.

(** The active path of [secureRemove] after [k] successful renames. *)
Fixpoint wipePath (path : string) (k : nat) : string :=
  match k with
  | O => path
  | S k' => wipePath path k' +:+ ".wipe" +:+ dec (Z.of_nat k')
  end.

(** [k] successful renames along [wipePath], then the failed one, if any. *)
Definition renamesUpTo (path : string) (k : nat) (failure : option error)
  : list (string * string * option error) :=
  ((fun i => (wipePath path i, wipePath path (S i), None)) <$> seq 0 k)
  ++ match failure with
     | Some e => [(wipePath path k, wipePath path (S k), Some e)]
     | None => []
     end.

(** ** The rest of the program *)

Section Wiper.
Context {W : Type} {os : OS W}.


End Wiper.

(** ** More readers of the log *)

(** The chunks of one pass over [n] bytes: the whole pattern as often as
    it fits, then its prefix for the bytes left. *)
Definition chunksOf (pattern : list byte) (n : nat) : list (list byte) :=
  replicate (n / length pattern) pattern
  ++ (if (n mod length pattern =? 0)%nat then []
      else [take (n mod length pattern) pattern]).

(** Calls that change a file, its name or its times. *)
Definition mutating (c : call) : bool :=
  match c with
  | WriteFile _ _ _ | Chtimes _ _ _ | Rename _ _ | Remove _ | Write _ _ => true
  | OpenFile _ flag _ => negb (Z.land flag O_TRUNC =? 0)
  | _ => false
  end.

Definition mutations (l : list event) : list call :=
  omap (fun e => match e with
                 | Called c _ => if mutating c then Some c else None
                 | _ => None
                 end) l.

(** Every call of the log succeeded. *)
Definition all_succeeded (l : list event) : Prop :=
  Forall (fun e => match e with Called _ (Some _) => False | _ => True end) l.


(** The script in which every write fails and nothing else does. *)
Definition writes_fail (c : call) : option error :=
  match c with
  | Write _ _ => Some "no space left on device"
  | _ => None
  end.





(** The ten bytes wiped with no fault injected. *)
Definition completeRun := wipeOn abcdefghij MemFS.no_faults.

(** The warnings that the timestamp changes [i+1], [i+2], ... leave in the
    status label: one line for each change that failed. *)
Fixpoint metadata_warnings (i : Z) (errs : list (option error)) : list string :=
  match errs with
  | [] => []
  | cerr :: rest =>
      match cerr with
      | Some err => ["⚠️ Metadata change " +:+ dec (i + 1) +:+ " failed: " +:+ err]
      | None => []
      end ++ metadata_warnings (i + 1) rest
  end.

(** The [Chtimes] calls that set both times of [path] to the whole second
    [r], one for each [r] and with the given results. *)
Definition randomTimes (path : string) (rs : list Z) (errs : list (option error))
  : list (string * Time * Time * option error) :=
  zip_with (fun r err => (path, time_Unix r 0, time_Unix r 0, err)) rs errs.

(** [s'] differs from [s] at most in the times of [path]: the other files,
    the content of [path] and the clock are those of [s]. *)
Definition times_only (path : string) (s s' : MemFS.world) : Prop :=
  (forall q, q <> path -> MemFS.files s' !! q = MemFS.files s !! q) /\
  MemFS.content path s' = MemFS.content path s /\
  MemFS.clock s' = MemFS.clock s.



(** The whole pipeline on the ten bytes, no fault injected. *)
Definition deletedRun : outcome (option error) * MemFS.world * list event :=
  SecureDeleteAdvanced (os := MemFS.memfs) (lib := plainLib)
    (S (Z.to_nat BlockSize)) zeroKeyWiper "f"
    (MemFS.oneFile "f" abcdefghij 42 MemFS.no_faults).

(** The values put in the progress label, and the sleeps, in order. *)
Definition progress_lines (l : list event) : list string :=
  omap (fun e => match e with
                 | Progress msg => Some msg
                 | _ => None
                 end) l.

Definition sleep_calls (l : list event) : list Duration :=
  omap (fun e => match e with
                 | Called (Sleep d) _ => Some d
                 | _ => None
                 end) l.

(** The passes (counted from 1) among the [len] passes after pass [i] of
    [n] that report progress. *)
Fixpoint reporting (n i : Z) (len : nat) : list Z :=
  match len with
  | O => []
  | S len' =>
      (if (Z.rem (i + 1) ProgressUpdateInterval =? 0) || (i =? 0) || (i =? n - 1)
       then [i + 1] else [])
      ++ reporting n (i + 1) len'
  end.

(** The progress line of pass [k] of [n], up to the times it shows. *)
Definition progress_line (n k : Z) (times : string) : string :=
  "🔄 Progress: " +:+ dec (k * 100 ÷ n) +:+ "% (Pass " +:+ dec k
  +:+ "/35) Elapsed: " +:+ times.

(** * Properties *)

(** ** Tiling and [bytesRepeat] *)

Section Tiling.
Local Open Scope nat_scope.
Implicit Types (pattern result l : list byte) (n j k : nat).

Lemma copies_nil pattern : copies pattern [].
Proof.
  split; [exists 0; reflexivity | simpl; intros j Hj; lia].
Qed.

Lemma copies_app pattern l :
  pattern <> [] -> copies pattern l -> copies pattern (l ++ pattern).
Proof.
  intros Hne [[k Hk] Hl].
  assert (0 < length pattern) by (destruct pattern; simpl; [congruence | lia]).
  split.
  - exists (S k). rewrite length_app, Hk. lia.
  - intros j. rewrite length_app. intros Hj.
    destruct (decide (j < length l)) as [Hlt | Hge].
    + rewrite lookup_app_l by exact Hlt. apply Hl, Hlt.
    + rewrite lookup_app_r by lia. f_equal.
      replace j with ((j - length l) + k * length pattern) at 2 by lia.
      rewrite Nat.Div0.mod_add. symmetry. apply Nat.mod_small. lia.
Qed.

Lemma tile_from_length pattern : pattern <> [] ->
  forall n cur, length (tile_from pattern cur n) = n.
Proof.
  intros Hne. induction n as [| n IH]; intros cur; simpl; [reflexivity |].
  destruct cur as [| b cur].
  - destruct pattern as [| b p]; [congruence |]. simpl. f_equal. apply IH.
  - simpl. f_equal. apply IH.
Qed.

Lemma tile_length pattern n : pattern <> [] -> length (tile pattern n) = n.
Proof. intros Hne. apply tile_from_length, Hne. Qed.

Lemma tile_from_lookup pattern : pattern <> [] ->
  forall n i j, i <= length pattern -> j < n ->
    tile_from pattern (drop i pattern) n !! j
    = pattern !! ((i + j) mod length pattern).
Proof.
  intros Hne.
  assert (Hpos : 0 < length pattern)
    by (destruct pattern; simpl; [congruence | lia]).
  induction n as [| n IH]; intros i j Hi Hj; [lia |].
  simpl. destruct (drop i pattern) as [| b cur] eqn:Hd.
  - assert (i = length pattern) as ->.
    { apply (f_equal length) in Hd. rewrite length_drop in Hd. simpl in Hd. lia. }
    destruct pattern as [| b p] eqn:Hp; [congruence |]. rewrite <- Hp in *.
    assert (Hp1 : p = drop 1 pattern) by (rewrite Hp; reflexivity).
    destruct j as [| j].
    + simpl. rewrite Nat.add_0_r, Nat.Div0.mod_same. rewrite Hp. reflexivity.
    + simpl. rewrite Hp1, IH by lia.
      f_equal. replace (length pattern + S j) with ((1 + j) + 1 * length pattern) by lia.
      rewrite Nat.Div0.mod_add. reflexivity.
  - assert (Hlt : i < length pattern).
    { apply (f_equal length) in Hd. rewrite length_drop in Hd. simpl in Hd. lia. }
    assert (Hb : pattern !! i = Some b).
    { rewrite <- (Nat.add_0_r i), <- lookup_drop, Hd. reflexivity. }
    assert (Hcur : cur = drop (S i) pattern).
    { rewrite (drop_S _ _ _ Hb) in Hd. congruence. }
    destruct j as [| j].
    + simpl. rewrite Nat.add_0_r, Nat.mod_small by lia. symmetry. exact Hb.
    + simpl. rewrite Hcur, IH by lia. f_equal. f_equal. lia.
Qed.

Lemma tile_lookup pattern n j : pattern <> [] -> j < n ->
  tile pattern n !! j = pattern !! (j mod length pattern).
Proof.
  intros Hne Hj. unfold tile.
  rewrite <- (drop_0 pattern) at 2.
  rewrite tile_from_lookup by (auto; lia). reflexivity.
Qed.

(** Two lists of [n] bytes that read the pattern cyclically are equal. *)
Lemma tile_unique pattern n l : pattern <> [] -> length l = n ->
  (forall j, j < n -> l !! j = pattern !! (j mod length pattern)) ->
  l = tile pattern n.
Proof.
  intros Hne Hlen Hl. apply list_eq. intros j.
  destruct (decide (j < n)) as [Hj | Hj].
  - rewrite Hl, tile_lookup by assumption. reflexivity.
  - rewrite !lookup_ge_None_2; [reflexivity | |].
    + rewrite tile_length by assumption. lia.
    + lia.
Qed.

(** The loop of [bytesRepeat]: from whole copies of a non-empty pattern
    and with fuel for the bytes still missing it returns the tiling. *)
Lemma bytesRepeat_loop_tile pattern (size : Z) : pattern <> [] -> (0 <= size)%Z ->
  forall fuel result, copies pattern result ->
    Z.to_nat size - length result < fuel ->
    bytesRepeat_loop fuel pattern size result = Ret (tile pattern (Z.to_nat size)).
Proof.
  intros Hne Hsize.
  assert (Hpos : 0 < length pattern)
    by (destruct pattern; simpl; [congruence | lia]).
  induction fuel as [| fuel IH]; intros result Hc Hfuel; [lia |].
  simpl. destruct (Z.ltb_spec (Z.of_nat (length result)) size) as [Hlt | Hge].
  - apply IH; [apply copies_app; assumption |].
    rewrite length_app. lia.
  - f_equal. apply tile_unique; [assumption | |].
    + rewrite length_take. lia.
    + intros j Hj. rewrite lookup_take_lt by lia. apply Hc. lia.
Qed.

Lemma bytesRepeat_tile fuel pattern (size : Z) :
  pattern <> [] -> (0 <= size)%Z -> Z.to_nat size < fuel ->
  bytesRepeat fuel pattern size = Ret (tile pattern (Z.to_nat size)).
Proof.
  intros Hne Hsize Hfuel. unfold bytesRepeat.
  destruct (Z.ltb_spec size 0); [lia |].
  apply bytesRepeat_loop_tile; [assumption | assumption | apply copies_nil |].
  simpl. lia.
Qed.

(** C10. For a non-empty pattern [p] and a size [n >= 0], and with fuel for
    more than [n] iterations, [bytesRepeat p n] returns a slice of exactly
    [n] bytes whose byte at index [j] is [p[j mod len(p)]]. *)
Theorem bytesRepeat_cyclic fuel pattern (size : Z) :
  pattern <> [] -> (0 <= size)%Z -> Z.to_nat size < fuel ->
  exists result,
    bytesRepeat fuel pattern size = Ret result /\
    Z.of_nat (length result) = size /\
    forall j, j < Z.to_nat size ->
      result !! j = pattern !! (j mod length pattern).
Proof.
  intros Hne Hsize Hfuel. exists (tile pattern (Z.to_nat size)).
  split; [apply bytesRepeat_tile; assumption |].
  split; [rewrite tile_length by assumption; lia |].
  intros j Hj. apply tile_lookup; assumption.
Qed.

(** The 3-byte pattern repeated to 7 bytes. *)
Lemma bytesRepeat_cyclic_witness :
  exists result,
    bytesRepeat 8 [x92; x49; x24] 7 = Ret result /\
    Z.of_nat (length result) = 7%Z /\
    forall j, j < Z.to_nat 7 ->
      result !! j = [x92; x49; x24] !! (j mod length [x92; x49; x24]).
Proof.
  apply (bytesRepeat_cyclic 8 [x92; x49; x24] 7);
    [discriminate | lia | vm_compute; lia].
Defined.

End Tiling.

(** ** The pattern table *)

Lemma BlockSize_value : BlockSize = 65536.
Proof. reflexivity. Qed.

Lemma third_value : BlockSize ÷ 3 + 1 = 21846.
Proof. reflexivity. Qed.

#[local] Opaque BlockSize.

Lemma gutmannFixed_closed fuel :
  (Z.to_nat BlockSize < fuel)%nat -> gutmannFixed fuel = Ret fixedPatterns.
Proof.
  intros Hfuel. unfold gutmannFixed, fixedPatterns.
  assert (H3 : (Z.to_nat (BlockSize ÷ 3 + 1) < fuel)%nat)
    by (rewrite third_value; rewrite BlockSize_value in Hfuel; lia).
  assert (0 <= BlockSize) by (rewrite BlockSize_value; lia).
  assert (0 <= BlockSize ÷ 3 + 1) by (rewrite third_value; lia).
  rewrite !bytesRepeat_tile by (assumption || discriminate).
  reflexivity.
Qed.

Lemma fixedPatterns_length : length fixedPatterns = 11%nat.
Proof. reflexivity. Qed.

Lemma fixedPatterns_entry i p :
  fixedPatterns !! i = Some p -> Z.of_nat (length p) = entryLength i.
Proof.
  unfold fixedPatterns, entryLength.
  do 11 (destruct i as [| i];
         [ simpl; intros [= <-]; rewrite ?length_replicate, ?tile_length by discriminate;
           rewrite Z2Nat.id; [reflexivity | first [rewrite third_value | rewrite BlockSize_value]; lia]
         | ]).
  simpl. discriminate.
Qed.

#[local] Opaque fixedPatterns.

Section Patterns.
Context {W : Type} {os : OS W}.

(** [randomBytes BlockSize] returns a block of [BlockSize] bytes, or panics
    because the random source failed. *)
Lemma randomBytes_block (s : W) :
  ends (outcome_of (randomBytes BlockSize s))
    (fun block => Z.of_nat (length block) = BlockSize)
    (exists e, (cryptorand_Read (Z.to_nat BlockSize) s).1 = Err e).
Proof.
  unfold ends, randomBytes. rewrite BlockSize_value. change (65536 <? 0) with false.
  cbv beta iota. unfold bind, do_CryptoRead, answered.
  destruct (cryptorand_Read (Z.to_nat 65536) s) as [[data | e] s'] eqn:Hr; simpl.
  - rewrite length_resize. lia.
  - exists e. reflexivity.
Qed.

(** The fill loop: with fuel for the missing entries it returns the table
    extended to 35 entries by blocks of [BlockSize] bytes, or panics because
    the random source failed. *)
Lemma gutmannFill_blocks fuel : forall (patterns : list (list byte)) (s : W),
  (35 - length patterns < fuel)%nat ->
  ends (outcome_of (gutmannFill fuel patterns s))
    (fun table =>
       exists extra, table = patterns ++ extra /\
         length extra = (35 - length patterns)%nat /\
         Forall (fun block => Z.of_nat (length block) = BlockSize) extra)
    (exists s' e, (cryptorand_Read (Z.to_nat BlockSize) s').1 = Err e).
Proof.
  unfold ends.
  induction fuel as [| fuel IH]; intros patterns s Hfuel; [lia |].
  simpl. destruct (Z.ltb_spec (Z.of_nat (length patterns)) 35) as [Hlt | Hge].
  - unfold bind. pose proof (randomBytes_block s) as Hb.
    destruct (randomBytes BlockSize s) as [[[block | msg |] s1] l1]; simpl in Hb.
    + assert (Hfuel' : (35 - length (patterns ++ [block]) < fuel)%nat)
        by (rewrite length_app; simpl; lia).
      specialize (IH (patterns ++ [block]) s1 Hfuel').
      destruct (gutmannFill fuel (patterns ++ [block]) s1) as [[[table | msg |] s2] l2];
        simpl in IH |- *; [| exact IH | exact IH].
      destruct IH as (extra & -> & Hlen & Hall).
      exists (block :: extra). rewrite <- app_assoc. split; [reflexivity |].
      split; [rewrite length_app in Hlen; simpl in Hlen |- *; lia |].
      constructor; assumption.
    + simpl. destruct Hb as [e He]. exists s, e. exact He.
    + contradiction.
  - simpl. exists []. rewrite app_nil_r. split; [reflexivity |].
    split; [simpl; lia | constructor].
Qed.

Lemma randomBytes_log (size : Z) (s : W) :
  Forall is_random (log_of (randomBytes size s)).
Proof.
  unfold randomBytes. destruct (size <? 0); [constructor |].
  unfold bind, do_CryptoRead, answered.
  destruct (cryptorand_Read (Z.to_nat size) s) as [[data | e] s'];
    repeat constructor; eexists _, _; reflexivity.
Qed.

Lemma gutmannFill_log fuel : forall (patterns : list (list byte)) (s : W),
  Forall is_random (log_of (gutmannFill fuel patterns s)).
Proof.
  induction fuel as [| fuel IH]; intros patterns s; [constructor |].
  simpl. destruct (Z.of_nat (length patterns) <? 35); [| constructor].
  unfold bind. pose proof (randomBytes_log BlockSize s) as Hl1.
  destruct (randomBytes BlockSize s) as [[[block | msg |] s1] l1];
    [| exact Hl1 | exact Hl1].
  specialize (IH (patterns ++ [block]) s1).
  destruct (gutmannFill fuel (patterns ++ [block]) s1) as [[o s2] l2].
  apply Forall_app. split; [exact Hl1 | exact IH].
Qed.

(** The table, when it is built: the eleven fixed entries and 24 more, 35
    non-empty entries in all. *)
Lemma gutmannPatterns_entries fuel (s : W) :
  (Z.to_nat BlockSize < fuel)%nat ->
  ends (outcome_of (gutmannPatterns fuel s))
    (fun table =>
       length table = 35%nat /\ Forall (fun p => p <> []) table /\
       exists extra, table = fixedPatterns ++ extra)
    True.
Proof.
  intros Hfuel. unfold ends, gutmannPatterns, bind, lift.
  rewrite gutmannFixed_closed by assumption.
  pose proof (gutmannFill_blocks fuel fixedPatterns s) as Hfill.
  unfold ends in Hfill. rewrite fixedPatterns_length in Hfill.
  specialize (Hfill ltac:(rewrite BlockSize_value in Hfuel; lia)).
  destruct (gutmannFill fuel fixedPatterns s) as [[[table | msg |] s2] l2];
    simpl in Hfill |- *; [| exact I | exact Hfill].
  destruct Hfill as (extra & -> & Hlen & Hall).
  split; [rewrite length_app, fixedPatterns_length, Hlen; reflexivity |].
  split; [| exists extra; reflexivity].
  apply Forall_app. split.
  - apply Forall_lookup. intros i p Hi Hnil.
    apply fixedPatterns_entry in Hi. subst p. simpl in Hi.
    unfold entryLength in Hi. rewrite third_value, BlockSize_value in Hi.
    destruct (bool_decide _); lia.
  - eapply Forall_impl; [exact Hall |]. intros p Hp ->. simpl in Hp.
    rewrite BlockSize_value in Hp. lia.
Qed.

(** When the random source does not fail the table is built: 35 non-empty
    entries, and nothing but reads of the random source in the log. *)
Lemma gutmannPatterns_run fuel (s : W) :
  (Z.to_nat BlockSize < fuel)%nat ->
  (forall n s0, res_err (cryptorand_Read n s0).1 = None) ->
  exists table s' l,
    gutmannPatterns fuel s = (Ret table, s', l) /\
    length table = 35%nat /\ Forall (fun p => p <> []) table /\
    Forall is_random l.
Proof.
  intros Hfuel Hrand. unfold gutmannPatterns, bind, lift.
  rewrite gutmannFixed_closed by assumption.
  pose proof (gutmannFill_blocks fuel fixedPatterns s) as Hfill.
  pose proof (gutmannFill_log fuel fixedPatterns s) as Hlog.
  unfold ends in Hfill. rewrite fixedPatterns_length in Hfill.
  specialize (Hfill ltac:(rewrite BlockSize_value in Hfuel; lia)).
  destruct (gutmannFill fuel fixedPatterns s) as [[[table | msg |] s2] l2];
    simpl in Hfill |- *.
  - destruct Hfill as (extra & -> & Hlen & Hall).
    eexists _, _, _. split; [reflexivity |].
    split; [rewrite length_app, fixedPatterns_length, Hlen; reflexivity |].
    split; [| exact Hlog].
    apply Forall_app. split.
    + apply Forall_lookup. intros i p Hi Hnil.
      apply fixedPatterns_entry in Hi. subst p. simpl in Hi.
      unfold entryLength in Hi. rewrite third_value, BlockSize_value in Hi.
      destruct (bool_decide _); lia.
    + eapply Forall_impl; [exact Hall |]. intros p Hp ->. simpl in Hp.
      rewrite BlockSize_value in Hp. lia.
  - destruct Hfill as (s' & e & He). specialize (Hrand (Z.to_nat BlockSize) s').
    rewrite He in Hrand. discriminate.
  - contradiction.
Qed.

(** C1 (amended). With fuel for more than [BlockSize] iterations the
    pattern table is built, unless the random source fails (then the
    program panics); it has exactly 35 entries; every entry has exactly
    [BlockSize] = 65536 bytes, except the three rotating 3-byte patterns at
    indices 4, 5 and 6, which have [BlockSize/3 + 1] = 21846 bytes. *)
Theorem gutmannPatterns_table fuel (s : W) :
  (Z.to_nat BlockSize < fuel)%nat ->
  ends (outcome_of (gutmannPatterns fuel s))
    (fun table =>
       length table = 35%nat /\
       forall i p, table !! i = Some p -> Z.of_nat (length p) = entryLength i)
    (exists s' e, (cryptorand_Read (Z.to_nat BlockSize) s').1 = Err e).
Proof.
  intros Hfuel. unfold ends, gutmannPatterns, bind, lift.
  rewrite gutmannFixed_closed by assumption.
  pose proof (gutmannFill_blocks fuel fixedPatterns s) as Hfill.
  unfold ends in Hfill. rewrite fixedPatterns_length in Hfill.
  specialize (Hfill ltac:(rewrite BlockSize_value in Hfuel; lia)).
  destruct (gutmannFill fuel fixedPatterns s) as [[[table | msg |] s2] l2];
    simpl in Hfill |- *; [| exact Hfill | exact Hfill].
  destruct Hfill as (extra & -> & Hlen & Hall). split.
  - rewrite length_app, fixedPatterns_length, Hlen. reflexivity.
  - intros i p Hi. apply lookup_app_Some in Hi as [Hi | [Hge Hi]].
    + apply fixedPatterns_entry, Hi.
    + rewrite fixedPatterns_length in Hge, Hi.
      apply list_elem_of_lookup_2 in Hi.
      rewrite Forall_forall in Hall. rewrite (Hall p Hi).
      unfold entryLength. rewrite bool_decide_eq_false_2 by lia. reflexivity.
Qed.

End Patterns.

(** The table on a system where nothing fails. *)
Lemma gutmannPatterns_table_witness :
  (Z.to_nat BlockSize < S (Z.to_nat BlockSize))%nat /\
  ends (outcome_of (gutmannPatterns (os := scripted (fun _ => None) 0)
                      (S (Z.to_nat BlockSize)) tt))
    (fun table =>
       length table = 35%nat /\
       forall i p, table !! i = Some p -> Z.of_nat (length p) = entryLength i)
    (exists s' e,
       (cryptorand_Read (OS := scripted (fun _ => None) 0)
          (Z.to_nat BlockSize) s').1 = Err e).
Proof.
  assert (Hfuel : (Z.to_nat BlockSize < S (Z.to_nat BlockSize))%nat) by lia.
  split; [exact Hfuel |].
  exact (gutmannPatterns_table (os := scripted (fun _ => None) 0)
           (S (Z.to_nat BlockSize)) tt Hfuel).
Defined.

(** C1 as stated fails: on a system where nothing fails the table is built
    and not all of its entries have [BlockSize] bytes (the entry at index 4
    has 21846). *)
Lemma gutmannPatterns_not_all_BlockSize :
  exists table,
    outcome_of (gutmannPatterns (os := scripted (fun _ => None) 0)
                  (S (Z.to_nat BlockSize)) tt) = Ret table /\
    length table = 35%nat /\
    ~ Forall (fun p => Z.of_nat (length p) = BlockSize) table.
Proof.
  unfold gutmannPatterns, bind, lift.
  rewrite gutmannFixed_closed by lia.
  pose proof (gutmannFill_blocks (os := scripted (fun _ => None) 0)
                (S (Z.to_nat BlockSize)) fixedPatterns tt) as Hfill.
  unfold ends in Hfill. rewrite fixedPatterns_length in Hfill.
  specialize (Hfill ltac:(rewrite BlockSize_value; lia)).
  destruct (gutmannFill (S (Z.to_nat BlockSize)) fixedPatterns tt)
    as [[[table | msg |] s2] l2]; simpl in Hfill |- *.
  - destruct Hfill as (extra & -> & Hlen & _).
    exists (fixedPatterns ++ extra). split; [reflexivity |]. split.
    { rewrite length_app, fixedPatterns_length, Hlen. reflexivity. }
    intros Hall. rewrite Forall_lookup in Hall.
    specialize (Hall 4%nat (tile [x92; x49; x24] (Z.to_nat (BlockSize ÷ 3 + 1)))).
    rewrite tile_length, third_value, BlockSize_value in Hall by discriminate.
    enough (21846 = 65536) by lia.
    rewrite <- Hall; [lia |].
    rewrite lookup_app_l by (rewrite fixedPatterns_length; lia).
    reflexivity.
  - destruct Hfill as (s' & e & He). discriminate He.
  - contradiction.
Qed.

(** ** Secure removal *)

Lemma string_length_app (a b : string) :
  String.length (a +:+ b) = (String.length a + String.length b)%nat.
Proof. induction a as [| c a IH]; simpl; [reflexivity | rewrite IH; reflexivity]. Qed.

Lemma string_app_assoc (a b c : string) : (a +:+ b) +:+ c = a +:+ (b +:+ c).
Proof.
  induction a as [| x a IH]; [reflexivity |].
  change (String x ((a +:+ b) +:+ c) = String x (a +:+ (b +:+ c))).
  rewrite IH. reflexivity.
Qed.

Lemma append_ne (a b : string) : (0 < String.length b)%nat -> a <> a +:+ b.
Proof.
  intros Hb Heq. apply (f_equal String.length) in Heq.
  rewrite string_length_app in Heq. lia.
Qed.

Section Removal.
Context {W : Type} {os : OS W} {lib : Lib}.
Implicit Types (w : AdvancedWiper) (path : string) (s : W).

(** The rename loop: it renames along [wipePath] until a rename fails or
    the iterations are used up, and returns the last path reached. *)
Lemma secureRemove_renames_spec w path n : forall k s,
  exists j failure s' l,
    (j <= n)%nat /\ (failure = None <-> j = n) /\
    secureRemove_renames n w (wipePath path k) (Z.of_nat k) s
    = (Ret (wipePath path (k + j)), s', l) /\
    rename_calls l
    = ((fun i => (wipePath path i, wipePath path (S i), None)) <$> seq k j)
      ++ match failure with
         | Some e => [(wipePath path (k + j), wipePath path (S (k + j)), Some e)]
         | None => []
         end /\
    remove_calls l = [].
Proof.
  induction n as [| n IH]; intros k s.
  - exists 0%nat, None, s, []. rewrite Nat.add_0_r. simpl.
    split; [lia |]. split; [split; reflexivity |]. repeat split; reflexivity.
  - simpl. unfold bind, do_Rename, answered.
    destruct (os_Rename _ _ s) as [[e |] s1] eqn:Hr.
    + eexists 0%nat, (Some e), s1, _. rewrite Nat.add_0_r. simpl.
      split; [lia |]. split; [split; [discriminate | lia] |].
      repeat split; reflexivity.
    + destruct (IH (S k) s1) as (j & failure & s2 & l2 & Hj & Hf & Hrun & Hl & Hrm).
      exists (S j), failure, s2, (Called (Rename (wipePath path k) (wipePath path (S k))) None :: l2).
      replace (Z.of_nat k + 1) with (Z.of_nat (S k)) by lia.
      change (wipePath path k +:+ ".wipe" +:+ dec (Z.of_nat k))
        with (wipePath path (S k)).
      fold (@bind W). rewrite Hrun.
      replace (k + S j)%nat with (S (k + j)) by lia.
      split; [lia |]. split; [rewrite Hf; lia |]. split; [reflexivity |].
      split; [| exact Hrm].
      unfold rename_calls in *. simpl. f_equal. exact Hl.
Qed.

Lemma wipePath_longer path k :
  (String.length path + 5 * k <= String.length (wipePath path k))%nat.
Proof.
  induction k as [| k IH]; simpl; [lia |].
  rewrite !string_length_app. simpl. lia.
Qed.

Lemma wipePath_ne path k : (0 < k)%nat -> path <> wipePath path k.
Proof.
  intros Hk Heq. apply (f_equal String.length) in Heq.
  pose proof (wipePath_longer path k). lia.
Qed.

Lemma wipePath_3 path :
  wipePath path 3 = path +:+ ".wipe0" +:+ ".wipe1" +:+ ".wipe2".
Proof.
  change (wipePath path 3)
    with (((path +:+ ".wipe0") +:+ ".wipe1") +:+ ".wipe2").
  rewrite !string_app_assoc. reflexivity.
Qed.

(** The whole of [secureRemove]: [k] renames succeed, the active path is
    [wipePath path k]; it is truncated and unlinked; if that unlink fails
    and a rename had succeeded, the original path is unlinked instead. *)
Lemma secureRemove_run w path s :
  exists k failure r s' l,
    (k <= 3)%nat /\ (failure = None <-> k = 3%nat) /\
    secureRemove w path s = (Ret r, s', l) /\
    rename_calls l = renamesUpTo path k failure /\
    ((remove_calls l = [(wipePath path k, None)] /\ r = None)
     \/ (exists e, k = 0%nat /\ remove_calls l = [(path, Some e)] /\
                   r = Some ("Final removal failed: " +:+ e))
     \/ (exists e, (0 < k)%nat /\
                   remove_calls l = [(wipePath path k, Some e); (path, None)] /\
                   r = None)
     \/ (exists e e2, (0 < k)%nat /\
                   remove_calls l = [(wipePath path k, Some e); (path, Some e2)] /\
                   r = Some ("Final removal failed: " +:+ e))).
Proof.
  destruct (secureRemove_renames_spec w path 3 0 s)
    as (k & failure & s1 & l1 & Hk & Hf & Hrun & Hren & Hrem).
  change (wipePath path 0) with path in Hrun. change (Z.of_nat 0) with 0 in Hrun.
  simpl (0 + k)%nat in Hrun, Hren.
  assert (Hlog : forall l2, rename_calls l2 = [] ->
            rename_calls (Status "🔒 Performing final secure removal..." :: l1 ++ l2)
            = renamesUpTo path k failure).
  { intros l2 Hl2. unfold rename_calls in *. simpl. rewrite omap_app, Hl2, app_nil_r.
    exact Hren. }
  assert (Hlogrm : forall l2,
            remove_calls (Status "🔒 Performing final secure removal..." :: l1 ++ l2)
            = remove_calls l2).
  { intros l2. unfold remove_calls in *. simpl. rewrite omap_app, Hrem. reflexivity. }
  exists k, failure.
  unfold secureRemove, bind, updateStatus. rewrite Hrun.
  unfold do_OpenFile, do_Close, do_Remove, answered, ret.
  destruct (os_OpenFile (wipePath path k) _ 0 s1) as [[file | e0] s2];
    [destruct (file_Close file s2) as [ec s2'] | ];
    simpl;
    match goal with
    | |- context [os_Remove (wipePath path k) ?s3] =>
        destruct (os_Remove (wipePath path k) s3) as [[e |] s4]; simpl
    end.
  all: try (destruct (decide (k = 0%nat)) as [-> | Hk0];
            [ rewrite bool_decide_eq_false_2 by (simpl; tauto)
            | rewrite bool_decide_eq_true_2 by (apply wipePath_ne; lia);
              simpl; destruct (os_Remove path s4) as [[e2 |] s5] ];
            simpl).
  all: eexists _, _, _; split; [lia |]; split; [exact Hf |];
    split; [reflexivity |]; split; [apply Hlog; reflexivity |];
    rewrite Hlogrm.
  all: first
    [ left; split; reflexivity
    | right; left; exists e; repeat split; reflexivity
    | right; right; left; exists e; split; [lia |]; split; reflexivity
    | right; right; right; exists e, e2; split; [lia |]; split; reflexivity ].
Qed.

(** C2 (amended). The renames of [secureRemove] go from the active path to
    the active path extended by [.wipe<i>]: after [k] successful renames
    the active path is [wipePath path k], that is [<path>.wipe0], then
    [<path>.wipe0.wipe1], then [<path>.wipe0.wipe1.wipe2].  The loop stops at
    the first failure, and the first unlink is attempted on the active
    path: on [<path>.wipe0.wipe1.wipe2] when all three renames succeed
    ([k = 3]), on the original path when the first rename fails ([k = 0]). *)
Theorem secureRemove_targets w path s :
  exists k failure,
    (k <= 3)%nat /\ (failure = None <-> k = 3%nat) /\
    rename_calls (log_of (secureRemove w path s)) = renamesUpTo path k failure /\
    head (remove_calls (log_of (secureRemove w path s))).*1
    = Some (wipePath path k) /\
    wipePath path 0 = path /\
    wipePath path 3 = path +:+ ".wipe0" +:+ ".wipe1" +:+ ".wipe2".
Proof.
  destruct (secureRemove_run w path s)
    as (k & failure & r & s' & l & Hk & Hf & Hrun & Hren & Hcases).
  exists k, failure. rewrite Hrun. unfold log_of. simpl.
  split; [exact Hk |]. split; [exact Hf |]. split; [exact Hren |].
  split; [| split; [reflexivity |]].
  - destruct Hcases as [[-> _] | [(e & -> & -> & _) | [(e & _ & -> & _) | (e & e2 & _ & -> & _)]]];
      reflexivity.
  - apply wipePath_3.
Qed.

Lemma renamesUpTo_first path k failure :
  (0 < k)%nat -> (path, wipePath path 1, None) ∈ renamesUpTo path k failure.
Proof.
  intros Hk. unfold renamesUpTo. apply elem_of_app. left.
  destruct k as [| k]; [lia |]. cbn [seq fmap list_fmap]. apply elem_of_cons.
  left. reflexivity.
Qed.

Lemma renamesUpTo_none path failure :
  Forall (fun c => is_Some c.2) (renamesUpTo path 0 failure).
Proof.
  unfold renamesUpTo. destruct failure as [e |]; cbn; repeat constructor.
  cbn. eauto.
Qed.

(** C5. [secureRemove] always returns, and it returns its error exactly
    when every unlink it attempted failed.  It attempts one unlink, on the
    active path, or two: when the first fails and a rename had succeeded
    (the active path differs from the original) it also unlinks the original
    path, and success there is overall success.  A single failed unlink is
    fatal only when no rename had succeeded. *)
Theorem secureRemove_fatal_iff w path s :
  exists r s' l active,
    secureRemove w path s = (Ret r, s', l) /\
    (is_Some r <-> Forall (fun c => is_Some c.2) (remove_calls l)) /\
    ((exists e1, remove_calls l = [(active, e1)] /\
                 (is_Some e1 ->
                  active = path /\ Forall (fun c => is_Some c.2) (rename_calls l)))
     \/ (exists e1 e2, remove_calls l = [(active, Some e1); (path, e2)] /\
                       active <> path /\
                       (path, wipePath path 1, None) ∈ rename_calls l /\
                       (e2 = None -> r = None))).
Proof.
  destruct (secureRemove_run w path s)
    as (k & failure & r & s' & l & Hk & Hf & Hrun & Hren & Hcases).
  exists r, s', l, (wipePath path k). split; [exact Hrun |]. rewrite Hren.
  destruct Hcases as [[-> ->] | [(e & -> & -> & ->) | [(e & Hk0 & -> & ->) | (e & e2 & Hk0 & -> & ->)]]].
  - split.
    + split; [intros [x Hx]; discriminate |].
      intros Hall. apply Forall_cons in Hall as [[x Hx] _]. discriminate.
    + left. exists None. split; [reflexivity |]. intros [x Hx]. discriminate.
  - split.
    + split; [| eauto]. intros _. repeat constructor. simpl. eauto.
    + left. exists (Some e). split; [reflexivity |]. intros _.
      split; [reflexivity | apply renamesUpTo_none].
  - split.
    + split; [intros [x Hx]; discriminate |].
      intros Hall. apply Forall_cons in Hall as [_ Hall].
      apply Forall_cons in Hall as [[x Hx] _]. discriminate.
    + right. exists e, None. split; [reflexivity |].
      split; [| split; [apply renamesUpTo_first, Hk0 | reflexivity]].
      intros Heq. symmetry in Heq. revert Heq. apply wipePath_ne, Hk0.
  - split.
    + split; [| eauto]. intros _. repeat constructor; simpl; eauto.
    + right. exists e, (Some e2). split; [reflexivity |].
      split; [| split; [apply renamesUpTo_first, Hk0 | discriminate]].
      intros Heq. symmetry in Heq. revert Heq. apply wipePath_ne, Hk0.
Qed.

End Removal.

(** C2 as stated fails: when all three renames of the file [f] succeed,
    the second and third targets are not [f.wipe1] and [f.wipe2], and the
    unlink is attempted on [f.wipe0.wipe1.wipe2], not on [f.wipe2]. *)
Lemma secureRemove_not_wipe2 :
  rename_calls (log_of (secureRemove (os := scripted (fun _ => None) 0)
                          (mkWiper []) "f" tt))
  = [("f", "f.wipe0", None);
     ("f.wipe0", "f.wipe0.wipe1", None);
     ("f.wipe0.wipe1", "f.wipe0.wipe1.wipe2", None)] /\
  remove_calls (log_of (secureRemove (os := scripted (fun _ => None) 0)
                          (mkWiper []) "f" tt))
  = [("f.wipe0.wipe1.wipe2", None)] /\
  head (remove_calls (log_of (secureRemove (os := scripted (fun _ => None) 0)
                                (mkWiper []) "f" tt))).*1
  <> Some "f.wipe2".
Proof. vm_compute. repeat split; discriminate. Qed.

(** The fallback of C5 at work: every unlink fails except that of the
    original path; the removal succeeds. *)
Example secureRemove_fallback :
  let fails c := match c with
                 | Remove path => if bool_decide (path = "f") then None else Some "busy"
                 | _ => None
                 end in
  let r := secureRemove (os := scripted fails 0) (mkWiper []) "f" tt in
  outcome_of r = Ret None /\
  remove_calls (log_of r) = [("f.wipe0.wipe1.wipe2", Some "busy"); ("f", None)].
Proof. vm_compute. split; reflexivity. Qed.

(** ** One overwrite pass *)

Section Tiles.
Local Open Scope nat_scope.
Implicit Types (pattern : list byte) (n k : nat).

(** The tiling read from a multiple of the pattern length starts with the
    pattern. *)
Lemma tile_chunk pattern n k m : pattern <> [] ->
  k * length pattern + m <= n -> m <= length pattern ->
  drop (k * length pattern) (tile pattern n)
  = take m pattern ++ drop (k * length pattern + m) (tile pattern n).
Proof.
  intros Hne Hn Hm.
  rewrite <- (take_drop m (drop (k * length pattern) (tile pattern n))) at 1.
  rewrite drop_drop. f_equal.
  apply list_eq. intros j.
  destruct (decide (j < m)) as [Hj | Hj].
  - rewrite !lookup_take_lt by assumption.
    rewrite lookup_drop, tile_lookup by (assumption || lia).
    f_equal. rewrite Nat.add_comm, Nat.Div0.mod_add. apply Nat.mod_small. lia.
  - rewrite !lookup_take_ge by lia. reflexivity.
Qed.

Lemma drop_tile_all pattern n : pattern <> [] -> drop n (tile pattern n) = [].
Proof. intros Hne. apply drop_ge. rewrite tile_length by assumption. lia. Qed.

End Tiles.

Lemma write_calls_write f bytes err l :
  write_calls (Called (Write f bytes) err :: l) = (bytes, err) :: write_calls l.
Proof. reflexivity. Qed.

Lemma written_write f bytes err l :
  written (Called (Write f bytes) err :: l) = bytes ++ written l.
Proof. reflexivity. Qed.

Lemma write_calls_app l1 l2 :
  write_calls (l1 ++ l2) = write_calls l1 ++ write_calls l2.
Proof. apply omap_app. Qed.

Lemma written_app l1 l2 : written (l1 ++ l2) = written l1 ++ written l2.
Proof.
  unfold written. rewrite write_calls_app, fmap_app, concat_app. reflexivity.
Qed.

Section Pass.
Context {W : Type} {os : OS W}.
Implicit Types (w : AdvancedWiper) (file : File) (pattern : list byte) (s : W).

(** The write loop from [bytesWritten], a multiple of the pattern length:
    it returns; its events are writes of prefixes of the pattern; when it
    returns [nil] every write succeeded and the bytes written are the rest
    of the tiling; an error it returns is the error of a [Write]. *)
Lemma overwritePass_loop_run file pattern (fileSize : Z) :
  pattern <> [] ->
  forall fuel (k : nat) s,
    let bytesWritten := Z.of_nat (k * length pattern) in
    bytesWritten <= Z.max 0 fileSize ->
    (Z.to_nat fileSize - Z.to_nat bytesWritten < fuel)%nat ->
    exists r s' l,
      overwritePass_loop fuel file pattern fileSize bytesWritten s = (Ret r, s', l) /\
      Forall (is_chunk file pattern) l /\
      (r = None ->
         Forall (fun c => c.2 = None) (write_calls l) /\
         written l = drop (k * length pattern) (tile pattern (Z.to_nat fileSize))) /\
      (forall e, r = Some e ->
         exists chunk s0, (file_Write file chunk s0).1 = Some e).
Proof.
  intros Hne.
  assert (Hpos : (0 < length pattern)%nat)
    by (destruct pattern; simpl; [congruence | lia]).
  induction fuel as [| fuel IH]; intros k s bw Hbw Hfuel; [lia |].
  subst bw. simpl.
  destruct (Z.ltb_spec (Z.of_nat (k * length pattern)) fileSize) as [Hlt | Hge].
  - set (m := Z.to_nat (min (Z.of_nat (length pattern))
                          (fileSize - Z.of_nat (k * length pattern)))).
    assert (Hm : Z.of_nat m = min (Z.of_nat (length pattern))
                                (fileSize - Z.of_nat (k * length pattern))).
    { subst m. unfold min. destruct (Z.ltb_spec (Z.of_nat (length pattern))
           (fileSize - Z.of_nat (k * length pattern))); lia. }
    rewrite <- Hm. unfold bind, do_Write, answered.
    destruct (file_Write file (take m pattern) s) as [[e |] s1] eqn:Hw.
    + exists (Some e), s1, [Called (Write file (take m pattern)) (Some e)].
      split; [reflexivity |]. split; [repeat constructor; exists m, (Some e); reflexivity |].
      split; [discriminate |]. intros e' [= <-].
      exists (take m pattern), s. rewrite Hw. reflexivity.
    + unfold min in Hm.
      destruct (Z.ltb_spec (Z.of_nat (length pattern))
                  (fileSize - Z.of_nat (k * length pattern))) as [Hfull | Hlast].
      * assert (m = length pattern) as Hmlen by lia.
        replace (Z.of_nat (k * length pattern) + Z.of_nat m)
          with (Z.of_nat (S k * length pattern)) by lia.
        destruct (IH (S k) s1) as (r & s2 & l2 & Hrun & Hev & Hok & Herr); [lia | lia |].
        rewrite Hrun. exists r, s2, (Called (Write file (take m pattern)) None :: l2).
        split; [reflexivity |].
        split; [constructor; [exists m, None; reflexivity | exact Hev] |].
        split; [| exact Herr].
        intros Hr. destruct (Hok Hr) as [Hall Hwr].
        rewrite write_calls_write, written_write, Hwr.
        split; [constructor; [reflexivity | exact Hall] |].
        rewrite (tile_chunk pattern _ k m) by (assumption || lia).
        f_equal. f_equal. lia.
      * (* the last, shortened chunk *)
        destruct fuel as [| fuel]; [lia |]. simpl.
        destruct (Z.ltb_spec (Z.of_nat (k * length pattern) + Z.of_nat m) fileSize); [lia |].
        exists None, s1, [Called (Write file (take m pattern)) None].
        split; [reflexivity |].
        split; [repeat constructor; exists m, None; reflexivity |].
        split; [| discriminate]. intros _.
        rewrite write_calls_write, written_write.
        split; [repeat constructor |].
        change (written []) with (@nil byte). rewrite app_nil_r.
        rewrite (tile_chunk pattern _ k m) by (assumption || lia).
        replace (k * length pattern + m)%nat with (Z.to_nat fileSize) by lia.
        rewrite drop_tile_all by assumption. rewrite app_nil_r. reflexivity.
  - exists None, s, []. split; [reflexivity |]. split; [constructor |].
    split; [| discriminate]. intros _. split; [constructor |].
    unfold written. simpl. symmetry. apply drop_ge.
    rewrite tile_length by assumption. lia.
Qed.

(** One pass: a seek to the start, then the write loop. *)
Lemma overwritePass_run fuel w file pattern (fileSize : Z) s :
  pattern <> [] -> (Z.to_nat fileSize < fuel)%nat ->
  exists r s' sk l,
    overwritePass fuel w file pattern fileSize s
    = (Ret r, s', Called (Seek file 0 0) sk :: l) /\
    Forall (is_chunk file pattern) l /\
    (r = None ->
       sk = None /\
       Forall (fun c => c.2 = None) (write_calls l) /\
       written l = tile pattern (Z.to_nat fileSize)) /\
    (forall e, r = Some e ->
       (exists s0, res_err (file_Seek file 0 0 s0).1 = Some e)
       \/ (exists chunk s0, (file_Write file chunk s0).1 = Some e)).
Proof.
  intros Hne Hfuel. unfold overwritePass, bind, do_Seek, answered.
  destruct (file_Seek file 0 0 s) as [[off | e] s1] eqn:Hs; simpl.
  - destruct (overwritePass_loop_run file pattern fileSize Hne fuel 0 s1)
      as (r & s2 & l & Hrun & Hev & Hok & Herr); [simpl; lia | simpl; lia |].
    change (Z.of_nat (0 * length pattern)) with 0 in Hrun.
    rewrite Hrun. exists r, s2, None, l.
    split; [reflexivity |]. split; [exact Hev |]. split.
    + intros Hr. destruct (Hok Hr) as [Hall Hwr]. rewrite drop_0 in Hwr. auto.
    + intros e Hr. right. apply Herr, Hr.
  - exists (Some e), s1, (Some e), []. split; [reflexivity |].
    split; [constructor |]. split; [discriminate |].
    intros e' [= <-]. left. exists s. rewrite Hs. reflexivity.
Qed.


End Pass.


(** ** The pass loop *)

Lemma sync_calls_app l1 l2 : sync_calls (l1 ++ l2) = sync_calls l1 ++ sync_calls l2.
Proof. apply omap_app. Qed.

Lemma seek_calls_app l1 l2 : seek_calls (l1 ++ l2) = seek_calls l1 ++ seek_calls l2.
Proof. apply omap_app. Qed.

Lemma statuses_app l1 l2 : statuses (l1 ++ l2) = statuses l1 ++ statuses l2.
Proof. apply omap_app. Qed.

(** Events of a pass's write loop are neither seeks, syncs nor status
    lines. *)
Lemma chunks_only file pattern l : Forall (is_chunk file pattern) l ->
  sync_calls l = [] /\ seek_calls l = [] /\ statuses l = [].
Proof.
  induction 1 as [| ev l (n & err & ->) _ IH]; [repeat split; reflexivity |].
  exact IH.
Qed.

Section Passes.
Context {W : Type} {os : OS W} {lib : Lib}.
Implicit Types (w : AdvancedWiper) (file : File) (s : W).

(** The progress report returns and neither writes, seeks, syncs nor adds
    a status line. *)
Lemma reportProgress_run w (startTime : Time) (n i : Z) s :
  exists s' l,
    reportProgress w startTime n i s = (Ret tt, s', l) /\
    write_calls l = [] /\ sync_calls l = [] /\ seek_calls l = [] /\
    statuses l = [].
Proof.
  unfold reportProgress.
  destruct ((Z.rem (i + 1) ProgressUpdateInterval =? 0) || (i =? 0) || (i =? n - 1)).
  - unfold bind, do_Now, do_Sleep, updateProgress, answered.
    destruct (time_Now s) as [now s1]. simpl.
    eexists _, _. split; [reflexivity |]. repeat split; reflexivity.
  - exists s, []. repeat split; reflexivity.
Qed.

(** With nothing left to write the loop of a pass returns at once. *)
Lemma overwritePass_loop_done fuel file pattern (fileSize bytesWritten : Z) s :
  (0 < fuel)%nat -> fileSize <= bytesWritten ->
  overwritePass_loop fuel file pattern fileSize bytesWritten s = (Ret None, s, []).
Proof.
  intros Hfuel Hsize. destruct fuel as [| fuel]; [lia |]. simpl.
  destruct (Z.ltb_spec bytesWritten fileSize); [lia | reflexivity].
Qed.


(** Reads of the random source are neither writes, seeks, syncs nor
    status lines. *)
Lemma random_only l : Forall is_random l ->
  written l = [] /\ sync_calls l = [] /\ seek_calls l = [] /\ statuses l = [].
Proof.
  induction 1 as [| ev l (n & err & ->) _ IH]; [repeat split; reflexivity |].
  exact IH.
Qed.

(** Where seeks and writes do not fail every pass runs, whatever the syncs
    answer: each pattern is written over the whole file, in order; each pass
    seeks once and syncs once; a failed sync leaves its warning and nothing
    else. *)
Lemma gutmannPasses_sync_tolerant fuel w file (fileSize : Z) (startTime : Time)
    (n : Z) :
  (forall f offset whence s0, res_err (file_Seek f offset whence s0).1 = None) ->
  (forall f bytes s0, (file_Write f bytes s0).1 = None) ->
  (Z.to_nat fileSize < fuel)%nat ->
  forall (rest : list (list byte)) (i : Z) s,
    Forall (fun p => p <> []) rest ->
    exists s' l,
      gutmannPasses fuel w file fileSize startTime n i rest s = (Ret None, s', l) /\
      written l = concat ((fun p => tile p (Z.to_nat fileSize)) <$> rest) /\
      seek_calls l = replicate (length rest) (0, 0, None) /\
      length (sync_calls l) = length rest /\
      statuses l = sync_warnings i (sync_calls l).
Proof.
  intros Hseek Hwrite Hfuel.
  induction rest as [| pattern rest IH]; intros i s Hne.
  - exists s, []. repeat split; reflexivity.
  - apply Forall_cons in Hne as [Hp Hne].
    cbn [gutmannPasses]. unfold bind at 1.
    destruct (overwritePass_run fuel w file pattern fileSize s Hp Hfuel)
      as (r & s1 & sk & l1 & -> & Hev & Hok & Herr).
    destruct r as [e |].
    { destruct (Herr e eq_refl) as [[s0 Hs0] | (chunk & s0 & Hs0)].
      - rewrite Hseek in Hs0. discriminate.
      - rewrite Hwrite in Hs0. discriminate. }
    destruct (Hok eq_refl) as (-> & _ & Hwr).
    destruct (chunks_only file pattern l1 Hev) as (Hsy1 & Hsk1 & Hst1).
    unfold bind, do_Sync, answered.
    destruct (file_Sync file s1) as [serr s2].
    assert (Hst : exists l0,
               match serr with
               | Some err =>
                   updateStatus w
                     ("⚠️ Sync warning pass " +:+ dec (i + 1) +:+ ": " +:+ err)
               | None => ret tt
               end s2 = (Ret tt, s2, l0) /\ written l0 = [] /\
               seek_calls l0 = [] /\ sync_calls l0 = [] /\
               statuses l0 = match serr with
                             | Some err =>
                                 ["⚠️ Sync warning pass " +:+ dec (i + 1) +:+ ": " +:+ err]
                             | None => []
                             end).
    { destruct serr; eexists; repeat split; reflexivity. }
    destruct Hst as (l0 & -> & Hw0 & Hsk0 & Hsy0 & Hst0).
    destruct (reportProgress_run w startTime n i s2)
      as (s3 & l3 & -> & Hw3 & Hsy3 & Hsk3 & Hst3).
    destruct (IH (i + 1) s3 Hne) as (s4 & l4 & -> & Hw4 & Hsk4 & Hsy4 & Hst4).
    eexists s4, _. split; [reflexivity |].
    change (Called (Seek file 0 0) None :: l1)
      with ([Called (Seek file 0 0) None] ++ l1).
    change (Called (Sync file) serr :: l0 ++ l3 ++ l4)
      with ([Called (Sync file) serr] ++ l0 ++ l3 ++ l4).
    rewrite !written_app, !seek_calls_app, !sync_calls_app, !statuses_app.
    assert (Hw3' : written l3 = []) by (unfold written; rewrite Hw3; reflexivity).
    rewrite Hwr, Hw0, Hw3', Hw4, Hsk1, Hsk0, Hsk3, Hsk4, Hsy1, Hsy0, Hsy3, Hst1, Hst0, Hst3, Hst4.
    split; [reflexivity |]. split; [reflexivity |].
    split; [simpl; rewrite Hsy4; reflexivity |].
    reflexivity.
Qed.

(** [gutmannWipe] where only syncs may fail: it returns [nil], having
    written the 35 patterns over the whole file in order. *)
Lemma gutmannWipe_run fuel w path s :
  (Z.to_nat BlockSize < fuel)%nat ->
  (forall p flag perm s0, res_err (os_OpenFile p flag perm s0).1 = None) ->
  (forall f s0, exists info,
      (file_Stat f s0).1 = Ok info /\ (Z.to_nat (Size info) < fuel)%nat) ->
  (forall n s0, res_err (cryptorand_Read n s0).1 = None) ->
  (forall f offset whence s0, res_err (file_Seek f offset whence s0).1 = None) ->
  (forall f bytes s0, (file_Write f bytes s0).1 = None) ->
  exists s' l table fileSize,
    gutmannWipe fuel w path s = (Ret None, s', l) /\
    length table = 35%nat /\
    written l = concat ((fun p => tile p (Z.to_nat fileSize)) <$> table) /\
    seek_calls l = replicate 35 (0, 0, None) /\
    length (sync_calls l) = 35%nat /\
    statuses l =
      [ "📊 File size: " +:+ dec fileSize +:+ " bytes";
        "🔧 Using " +:+ dec (BlockSize ÷ 1024) +:+ "KB blocks for optimization";
        "🔁 Starting Gutmann 35-pass wiping procedure" ]
      ++ sync_warnings 0 (sync_calls l).
Proof.
  intros Hfuel Hopen Hstat Hrand Hseek Hwrite.
  unfold gutmannWipe. unfold bind at 1. unfold do_OpenFile, answered.
  specialize (Hopen path O_WRONLY 0 s).
  destruct (os_OpenFile path O_WRONLY 0 s) as [[file | e] s1]; [| discriminate].
  clear Hopen. unfold defer, bind, do_FStat, do_Now, do_Close, answered, updateStatus,
    updateProgress, ret.
  destruct (Hstat file s1) as (info & Hinfo & Hsize).
  destruct (file_Stat file s1) as [st s2]. simpl in Hinfo. subst st.
  destruct (gutmannPatterns_run fuel s2 Hfuel Hrand)
    as (table & s3 & l3 & Hpat & Hlen & Hne & Hlog).
  rewrite Hpat.
  destruct (time_Now s3) as [startTime s4].
  destruct (gutmannPasses_sync_tolerant fuel w file (Size info) startTime
              (Z.of_nat (length table)) Hseek Hwrite Hsize table 0 s4 Hne)
    as (s5 & l5 & Hrun & Hw5 & Hsk5 & Hsy5 & Hst5).
  rewrite Hrun. destruct (file_Close file s5) as [ec s6].
  exists s6. eexists. exists table, (Size info). split; [reflexivity |].
  split; [exact Hlen |].
  destruct (random_only l3 Hlog) as (Hw3 & Hsy3 & Hsk3 & Hst3).
  rewrite Hlen in Hsk5, Hsy5.
  repeat match goal with
         | |- context [Called ?c ?e :: ?l] =>
             lazymatch l with
             | [] => fail
             | _ => change (Called c e :: l) with ([Called c e] ++ l)
             end
         | |- context [Status ?m :: ?l] =>
             lazymatch l with
             | [] => fail
             | _ => change (Status m :: l) with ([Status m] ++ l)
             end
         end.
  rewrite !written_app, !seek_calls_app, !sync_calls_app, !statuses_app.
  rewrite Hw3, Hw5, Hsk3, Hsk5, Hsy3, Hst3, Hst5.
  split; [simpl; rewrite ?app_nil_r; reflexivity |].
  split; [simpl; rewrite ?app_nil_r; reflexivity |].
  split; [simpl; rewrite ?app_nil_r; exact Hsy5 |].
  simpl. rewrite ?app_nil_r. reflexivity.
Qed.



End Passes.


(** Two passes over a 5-byte file whose syncs fail: both run, and each
    failed sync leaves one warning. *)
Example gutmannPasses_sync_warnings :
  let r := gutmannPasses (os := scripted sync_fails 5) (lib := plainLib) 6
             (mkWiper []) 3%nat 5 0 2 0 [[xff]; [x92; x49; x24]] tt in
  outcome_of r = Ret None /\
  written (log_of r) = [xff; xff; xff; xff; xff; x92; x49; x24; x92; x49] /\
  sync_calls (log_of r) = [Some "input/output error"; Some "input/output error"] /\
  statuses (log_of r) = ["⚠️ Sync warning pass 1: input/output error";
                         "⚠️ Sync warning pass 2: input/output error"].
Proof. vm_compute. repeat split; reflexivity. Qed.

(** Two patterns over an empty file: per pass a seek, a sync and a
    progress report, no write, and [nil]. *)
Example gutmannPasses_empty_file_run :
  gutmannPasses (os := scripted (fun _ => None) 0) (lib := plainLib) 1
    (mkWiper []) 3%nat 0 2 2 0 [[xff]; [x55; xaa]] tt
  = (Ret None, tt,
     [Called (Seek 3%nat 0 0) None; Called (Sync 3%nat) None;
      Called Now None;
      Progress "🔄 Progress: 50% (Pass 1/35) Elapsed: 0ns Remaining: ~0ns";
      Called (Sleep 10000000) None;
      Called (Seek 3%nat 0 0) None; Called (Sync 3%nat) None;
      Called Now None;
      Progress "🔄 Progress: 100% (Pass 2/35) Elapsed: 0ns Remaining: ~0ns";
      Called (Sleep 10000000) None]).
Proof. vm_compute. reflexivity. Qed.


(** ** The metadata scrubber in the pipeline *)

Section Pipeline.
Context {W : Type} {os : OS W} {lib : Lib}.
Implicit Types (w : AdvancedWiper) (path : string) (s : W).

Lemma chtimes_calls_app l1 l2 :
  chtimes_calls (l1 ++ l2) = chtimes_calls l1 ++ chtimes_calls l2.
Proof. apply omap_app. Qed.

(** The seven random timestamps: the loop always returns, one [Chtimes]
    per iteration, failed or not. *)
Lemma wipeMetadata_loop_run w path n : forall (i : Z) s,
  exists s' l,
    wipeMetadata_loop n w path i s = (Ret tt, s', l) /\
    length (chtimes_calls l) = n.
Proof.
  induction n as [| n IH]; intros i s.
  - exists s, []. split; reflexivity.
  - cbn [wipeMetadata_loop]. unfold bind, do_Int63n, do_Chtimes, answered.
    destruct (rand_Int63n 2000000000 s) as [r s1].
    destruct (os_Chtimes path (time_Unix r 0) (time_Unix r 0) s1) as [cerr s2].
    assert (Hst : exists l0,
               match cerr with
               | Some err =>
                   updateStatus w
                     ("⚠️ Metadata change " +:+ dec (i + 1) +:+ " failed: " +:+ err)
               | None => ret tt
               end s2 = (Ret tt, s2, l0) /\ chtimes_calls l0 = []).
    { destruct cerr; eexists; split; reflexivity. }
    destruct Hst as (l0 & -> & Hl0).
    destruct (IH (i + 1) s2) as (s3 & l3 & -> & Hl3).
    eexists s3, _. split; [reflexivity |].
    change (length (chtimes_calls
              ([Called (Int63n 2000000000) None]
               ++ [Called (Chtimes path (time_Unix r 0) (time_Unix r 0)) cerr]
               ++ l0 ++ l3)) = S n).
    rewrite !chtimes_calls_app, Hl0. simpl. rewrite Hl3. reflexivity.
Qed.

(** [wipeMetadata] returns what its eighth and last [Chtimes] returned. *)
Lemma wipeMetadata_run w path s :
  exists merr s' l pre a m,
    wipeMetadata w path s = (Ret merr, s', l) /\
    chtimes_calls l = pre ++ [(path, a, m, merr)] /\ length pre = 7%nat.
Proof.
  unfold wipeMetadata, bind, updateStatus.
  destruct (wipeMetadata_loop_run w path 7 0 s) as (s1 & l1 & -> & Hl1).
  unfold do_Now, do_Chtimes, answered.
  destruct (time_Now s1) as [a s2]. destruct (time_Now s2) as [m s3].
  destruct (os_Chtimes path a m s3) as [merr s4].
  exists merr, s4. eexists. exists (chtimes_calls l1), a, m.
  split; [reflexivity |]. split; [| exact Hl1].
  change (chtimes_calls
            ([Status "📊 Obfuscating metadata..."] ++ l1
             ++ [Called Now None; Called Now None; Called (Chtimes path a m) merr])
          = chtimes_calls l1 ++ [(path, a, m, merr)]).
  rewrite !chtimes_calls_app. reflexivity.
Qed.

(** After a successful encryption and overwrite the pipeline scrubs the
    metadata, turns an error of the scrubber into a warning, goes on to the
    free-space stage and to the removal, and returns what the removal
    returns. *)
Lemma SecureDeleteAdvanced_run fuel w path s s1 l1 s2 l2 :
  encryptFile w path s = (Ret None, s1, l1) ->
  gutmannWipe fuel w path s1 = (Ret None, s2, l2) ->
  exists merr s3 l3 pre a m r s4 l4,
    wipeMetadata w path s2 = (Ret merr, s3, l3) /\
    chtimes_calls l3 = pre ++ [(path, a, m, merr)] /\ length pre = 7%nat /\
    secureRemove w path s3 = (Ret r, s4, l4) /\
    SecureDeleteAdvanced fuel w path s
    = (Ret (String.append "Final removal failed: " <$> r), s4,
       [Status ("🚀 Starting advanced secure deletion for: " +:+ path)]
       ++ l1 ++ l2 ++ l3
       ++ match merr with
          | Some e => [Status ("⚠️ Metadata wiping failed: " +:+ e)]
          | None => []
          end
       ++ [Status "🗑️ Wiping free space";
           Status "🔧 Using platform-optimized free space wiping..."]
       ++ l4
       ++ match r with
          | Some _ => []
          | None => [Status "✅ Advanced secure deletion completed!"]
          end).
Proof.
  intros Henc Hwipe.
  destruct (wipeMetadata_run w path s2) as (merr & s3 & l3 & pre & a & m & Hmeta & Hch & Hpre).
  destruct (secureRemove_run w path s3)
    as (k & failure & r & s4 & l4 & _ & _ & Hrem & _).
  exists merr, s3, l3, pre, a, m, r, s4, l4.
  split; [exact Hmeta |]. split; [exact Hch |]. split; [exact Hpre |].
  split; [exact Hrem |].
  unfold SecureDeleteAdvanced, bind. unfold updateStatus at 1.
  rewrite Henc, Hwipe, Hmeta.
  unfold wipeFreeSpaceNoTemp, platformSpecificFreeSpaceWipe, bind, updateStatus, ret.
  destruct merr as [e |]; rewrite Hrem; destruct r as [e' |]; simpl;
    rewrite ?app_nil_r, <- ?app_assoc; reflexivity.
Qed.

(** C3 (amended). A failure of the final, eighth timestamp assignment is
    what [wipeMetadata] returns, and it is not fatal: after a successful
    encryption and overwrite the pipeline records it as the warning
    "Metadata wiping failed", goes on with the free-space stage and the
    removal, and returns what the removal returns, overall success
    included. *)
Theorem SecureDeleteAdvanced_metadata_not_fatal fuel w path s s1 l1 s2 l2 :
  encryptFile w path s = (Ret None, s1, l1) ->
  gutmannWipe fuel w path s1 = (Ret None, s2, l2) ->
  exists merr s3 l3 pre a m r s4 l4 l,
    wipeMetadata w path s2 = (Ret merr, s3, l3) /\
    chtimes_calls l3 = pre ++ [(path, a, m, merr)] /\ length pre = 7%nat /\
    secureRemove w path s3 = (Ret r, s4, l4) /\
    SecureDeleteAdvanced fuel w path s
    = (Ret (String.append "Final removal failed: " <$> r), s4, l) /\
    (forall e, merr = Some e ->
       Status ("⚠️ Metadata wiping failed: " +:+ e) ∈ l) /\
    Status "🗑️ Wiping free space" ∈ l /\
    (forall ev, ev ∈ l4 -> ev ∈ l) /\
    (r = None -> Status "✅ Advanced secure deletion completed!" ∈ l).
Proof.
  intros Henc Hwipe.
  destruct (SecureDeleteAdvanced_run fuel w path s s1 l1 s2 l2 Henc Hwipe)
    as (merr & s3 & l3 & pre & a & m & r & s4 & l4 & Hmeta & Hch & Hpre & Hrem & Hrun).
  exists merr, s3, l3, pre, a, m, r, s4, l4. eexists.
  split; [exact Hmeta |]. split; [exact Hch |]. split; [exact Hpre |].
  split; [exact Hrem |]. split; [exact Hrun |].
  split; [| split; [| split]].
  - intros e ->. rewrite !elem_of_app. do 4 right. left.
    apply elem_of_cons. left. reflexivity.
  - rewrite !elem_of_app. do 5 right. left. apply elem_of_cons. left. reflexivity.
  - intros ev Hev. rewrite !elem_of_app. do 6 right. left. exact Hev.
  - intros ->. rewrite !elem_of_app. do 7 right. apply elem_of_cons. left. reflexivity.
Qed.

End Pipeline.

(** The pipeline on a system where setting the times to the current time
    fails and nothing else does. *)
Lemma SecureDeleteAdvanced_metadata_not_fatal_witness :
  exists l1 l2,
    encryptFile (os := scripted chtimes_now_fails 10) (lib := plainLib)
      zeroKeyWiper "f" tt = (Ret None, tt, l1) /\
    gutmannWipe (os := scripted chtimes_now_fails 10) (lib := plainLib)
      (S (Z.to_nat BlockSize)) zeroKeyWiper "f" tt = (Ret None, tt, l2) /\
    exists merr s3 l3 pre a m r s4 l4 l,
      wipeMetadata (os := scripted chtimes_now_fails 10) zeroKeyWiper "f" tt
      = (Ret merr, s3, l3) /\
      chtimes_calls l3 = pre ++ [("f", a, m, merr)] /\ length pre = 7%nat /\
      secureRemove (os := scripted chtimes_now_fails 10) zeroKeyWiper "f" s3
      = (Ret r, s4, l4) /\
      SecureDeleteAdvanced (os := scripted chtimes_now_fails 10) (lib := plainLib)
        (S (Z.to_nat BlockSize)) zeroKeyWiper "f" tt
      = (Ret (String.append "Final removal failed: " <$> r), s4, l) /\
      (forall e, merr = Some e ->
         Status ("⚠️ Metadata wiping failed: " +:+ e) ∈ l) /\
      Status "🗑️ Wiping free space" ∈ l /\
      (forall ev, ev ∈ l4 -> ev ∈ l) /\
      (r = None -> Status "✅ Advanced secure deletion completed!" ∈ l).
Proof.
  assert (Henc : exists l1,
             encryptFile (os := scripted chtimes_now_fails 10) (lib := plainLib)
               zeroKeyWiper "f" tt = (Ret None, tt, l1))
    by (eexists; vm_compute; reflexivity).
  destruct Henc as [l1 Henc].
  destruct (gutmannWipe_run (os := scripted chtimes_now_fails 10) (lib := plainLib)
              (S (Z.to_nat BlockSize)) zeroKeyWiper "f" tt)
    as ([] & l2 & _ & _ & Hwipe & _).
  { lia. }
  { intros; reflexivity. }
  { intros f s0. exists (mkFileInfo 10 1). split; [reflexivity |].
    simpl Size. rewrite BlockSize_value. lia. }
  { intros; reflexivity. }
  { intros; reflexivity. }
  { intros; reflexivity. }
  exists l1, l2. split; [exact Henc |]. split; [exact Hwipe |].
  exact (SecureDeleteAdvanced_metadata_not_fatal
           (os := scripted chtimes_now_fails 10) (lib := plainLib)
           (S (Z.to_nat BlockSize)) zeroKeyWiper "f" tt tt l1 tt l2 Henc Hwipe).
Defined.


(** C3 as stated fails: on a system where setting the times to the current
    time fails (and nothing else does), the final timestamp assignment of
    [wipeMetadata] fails, the pipeline records the warning, and the wipe
    ends in overall success. *)
Lemma SecureDeleteAdvanced_survives_final_Chtimes :
  exists l,
    SecureDeleteAdvanced (os := scripted chtimes_now_fails 10) (lib := plainLib)
      (S (Z.to_nat BlockSize)) zeroKeyWiper "f" tt = (Ret None, tt, l) /\
    last (chtimes_calls l) = Some ("f", 2, 2, Some "operation not permitted") /\
    Status "⚠️ Metadata wiping failed: operation not permitted" ∈ l /\
    Status "✅ Advanced secure deletion completed!" ∈ l.
Proof.
  assert (Henc : exists l1,
             encryptFile (os := scripted chtimes_now_fails 10) (lib := plainLib)
               zeroKeyWiper "f" tt = (Ret None, tt, l1))
    by (eexists; vm_compute; reflexivity).
  destruct Henc as [l1 Henc].
  destruct (gutmannWipe_run (os := scripted chtimes_now_fails 10) (lib := plainLib)
              (S (Z.to_nat BlockSize)) zeroKeyWiper "f" tt)
    as ([] & l2 & _ & _ & Hwipe & _).
  { lia. }
  { intros; reflexivity. }
  { intros f s0. exists (mkFileInfo 10 1). split; [reflexivity |].
    simpl Size. rewrite BlockSize_value. lia. }
  { intros; reflexivity. }
  { intros; reflexivity. }
  { intros; reflexivity. }
  destruct (SecureDeleteAdvanced_run (os := scripted chtimes_now_fails 10)
              (lib := plainLib) (S (Z.to_nat BlockSize)) zeroKeyWiper "f"
              tt tt l1 tt l2 Henc Hwipe)
    as (merr & [] & l3 & pre & a & m & r & [] & l4 & Hmeta & Hch & Hpre & Hrem & Hrun).
  assert (Hm : wipeMetadata (os := scripted chtimes_now_fails 10) zeroKeyWiper "f" tt
               = (Ret (Some "operation not permitted"), tt, l3)
               /\ last (chtimes_calls l3)
                  = Some ("f", 2, 2, Some "operation not permitted")).
  { revert Hmeta. vm_compute. intros [= <- <-]. split; reflexivity. }
  destruct Hm as [Hm Hlast]. rewrite Hmeta in Hm. injection Hm as ->.
  assert (Hr : r = None /\ chtimes_calls l4 = []).
  { revert Hrem. vm_compute. intros [= <- <-]. split; reflexivity. }
  destruct Hr as [-> Hl4].
  rewrite Hrun. eexists. split; [reflexivity |]. split; [| split].
  - rewrite !chtimes_calls_app, Hl4.
    change (chtimes_calls [Status "✅ Advanced secure deletion completed!"])
      with (@nil (string * Time * Time * option error)).
    change (chtimes_calls
              [Status "🗑️ Wiping free space";
               Status "🔧 Using platform-optimized free space wiping..."])
      with (@nil (string * Time * Time * option error)).
    change (chtimes_calls
              [Status ("⚠️ Metadata wiping failed: " +:+ "operation not permitted")])
      with (@nil (string * Time * Time * option error)).
    rewrite !app_nil_r. rewrite Hch in Hlast |- *.
    rewrite !app_assoc. rewrite last_snoc in Hlast |- *. exact Hlast.
  - rewrite !elem_of_app. do 4 right. left. apply elem_of_cons. left. reflexivity.
  - rewrite !elem_of_app. do 7 right. apply elem_of_cons. left. reflexivity.
Qed.


(** ** Encryption on MemFS *)

Section MemEncrypt.
Import MemFS.
Context {lib : Lib}.

(** C9. On MemFS, whatever faults are injected: when [encryptFile] returns
    [nil] the file existed before, and its modification time afterwards is
    its modification time from before. *)
Theorem encryptFile_keeps_ModTime (w : AdvancedWiper) (path : string)
    (s s' : world) (l : list event) :
  encryptFile w path s = (Ret None, s', l) ->
  exists t, modtime path s = Some t /\ modtime path s' = Some t.
Proof.
  unfold encryptFile, bind, updateStatus, do_Stat, do_ReadFile, do_CryptoRead,
    do_WriteFile, do_Chtimes, answered, ret, modtime.
  cbn [os_Stat os_ReadFile os_WriteFile os_Chtimes cryptorand_Read memfs].
  unfold mem_Stat, mem_ReadFile, mem_WriteFile, mem_Chtimes, mem_CryptoRead, attempt.
  cbn. intros Hrun.
  repeat (case_match; simplify_eq; cbn in * ).
  eexists. split; [reflexivity |]. rewrite lookup_insert_eq. reflexivity.
Qed.

End MemEncrypt.

(** A 3-byte file last modified at time 42, encrypted with the clock at
    100. *)
Lemma encryptFile_keeps_ModTime_witness :
  exists s' l,
    encryptFile (os := MemFS.memfs) (lib := plainLib) zeroKeyWiper "f"
      (MemFS.oneFile "f" [x61; x62; x63] 42 MemFS.no_faults) = (Ret None, s', l) /\
    exists t,
      MemFS.modtime "f" (MemFS.oneFile "f" [x61; x62; x63] 42 MemFS.no_faults)
      = Some t /\
      MemFS.modtime "f" s' = Some t.
Proof.
  assert (Hrun : exists s' l,
             encryptFile (os := MemFS.memfs) (lib := plainLib) zeroKeyWiper "f"
               (MemFS.oneFile "f" [x61; x62; x63] 42 MemFS.no_faults)
             = (Ret None, s', l))
    by (eexists _, _; vm_compute; reflexivity).
  destruct Hrun as (s' & l & Hrun). exists s', l. split; [exact Hrun |].
  exact (encryptFile_keeps_ModTime (lib := plainLib) zeroKeyWiper "f" _ s' l Hrun).
Defined.

(** The encryption at work on a 3-byte file last modified at time 42, with
    the clock at 100: the file becomes nonce, text and tag (31 bytes), and
    its modification time is 42 again. *)
Example encryptFile_abc :
  let r := encryptFile (os := MemFS.memfs) (lib := plainLib) zeroKeyWiper "f"
             (MemFS.oneFile "f" [x61; x62; x63] 42 MemFS.no_faults) in
  outcome_of r = Ret None /\
  length <$> MemFS.content "f" (world_of r) = Some 31%nat /\
  MemFS.modtime "f" (world_of r) = Some 42.
Proof. vm_compute. repeat split; reflexivity. Qed.


(** ** Overwriting on MemFS *)

Section MemOverwrite.
Import MemFS.
Local Open Scope nat_scope.
Implicit Types (s : world) (f : File) (path : string) (bytes old : list byte).

Lemma write_at_mixed (new old : list byte) (bw c : nat) :
  length new = length old -> bw + c <= length old ->
  write_at bw (take c (drop bw new)) (mixed new old bw) = mixed new old (bw + c).
Proof.
  intros Hlen Hle. unfold write_at, mixed.
  assert (Hbw : length (take bw new) = bw) by (rewrite length_take; lia).
  assert (Hc : length (take c (drop bw new)) = c)
    by (rewrite length_take, length_drop; lia).
  rewrite resize_app by (symmetry; exact Hbw).
  rewrite Hc, drop_app_ge by lia. rewrite Hbw, drop_drop.
  rewrite app_assoc, take_take_drop. f_equal. f_equal. lia.
Qed.

Lemma mixed_0 new old : mixed new old 0 = old.
Proof. unfold mixed. rewrite take_0, drop_0. reflexivity. Qed.

Lemma mixed_all new old : length new = length old ->
  mixed new old (length old) = new.
Proof.
  intros Hlen. unfold mixed. rewrite drop_all, app_nil_r. apply take_ge. lia.
Qed.

Lemma take_length_take (l : list byte) (k : nat) :
  take (length (take k l)) l = take k l.
Proof.
  rewrite length_take. destruct (decide (k <= length l)).
  - rewrite Nat.min_l by assumption. reflexivity.
  - rewrite Nat.min_r, !take_ge by lia. reflexivity.
Qed.

(** A write at offset [bw]: all of the data on success, a prefix of it on
    failure. *)
Lemma mem_Write_at s f path (bw : nat) bytes chunk :
  open_at s f path (Z.of_nat bw) bytes ->
  exists r s' n,
    mem_Write f chunk s = (r, s') /\
    n <= length chunk /\ (r = None -> n = length chunk) /\
    open_at s' f path (Z.of_nat (bw + n)) (write_at bw (take n chunk) bytes).
Proof.
  intros [Hh Hc]. unfold content in Hc.
  destruct (files s !! path) as [ino |] eqn:Hf; [| discriminate].
  injection Hc as Hc. unfold mem_Write, attempt.
  destruct (faults s (history s) (Write f chunk)) as [ft |];
    unfold opened; cbn; rewrite Hh, Hf.
  - eexists (Some (fault_err ft)), _, (length (take (fault_written ft) chunk)).
    split; [reflexivity |]. split; [rewrite length_take; lia |].
    split; [discriminate |].
    unfold open_at, content. cbn. rewrite !lookup_insert_eq. cbn.
    rewrite Nat2Z.id, Hc, take_length_take.
    split; [f_equal; f_equal; lia | reflexivity].
  - eexists None, _, (length chunk). split; [reflexivity |]. split; [lia |].
    split; [reflexivity |].
    unfold open_at, content. cbn. rewrite !lookup_insert_eq. cbn.
    rewrite Nat2Z.id, Hc, take_ge by lia.
    split; [f_equal; f_equal; lia | reflexivity].
Qed.

(** A seek to the start leaves the file as it is; on success the offset
    is 0. *)
Lemma mem_Seek_start s f path (off : Z) bytes :
  open_at s f path off bytes ->
  exists r s' off',
    mem_Seek f 0 0 s = (r, s') /\ open_at s' f path off' bytes /\
    (res_err r = None -> off' = 0%Z).
Proof.
  intros [Hh Hc]. unfold content in Hc.
  destruct (files s !! path) as [ino |] eqn:Hf; [| discriminate].
  unfold mem_Seek, attempt.
  destruct (faults s (history s) (Seek f 0 0)) as [ft |];
    unfold opened; cbn; rewrite ?Hh, ?Hf.
  - eexists _, _, off. split; [reflexivity |].
    split; [split; [exact Hh | unfold content; cbn; rewrite Hf; exact Hc] |].
    discriminate.
  - eexists _, _, 0%Z. split; [reflexivity |].
    split; [| reflexivity]. unfold open_at, content. cbn.
    rewrite lookup_insert_eq, Hf. split; [reflexivity | exact Hc].
Qed.

(** Calls that leave the files and the handles alone. *)
Lemma mem_Sync_frame s f path (off : Z) bytes f' :
  open_at s f path off bytes -> open_at (mem_Sync f' s).2 f path off bytes.
Proof.
  intros H. unfold mem_Sync, attempt.
  destruct (faults s (history s) (Sync f')); cbn; [exact H |].
  destruct (handles s !! f'); exact H.
Qed.

Lemma mem_Now_frame s f path (off : Z) bytes :
  open_at s f path off bytes -> open_at (mem_Now s).2 f path off bytes.
Proof. intros H. exact H. Qed.

Lemma mem_CryptoRead_frame s f path (off : Z) bytes n :
  open_at s f path off bytes -> open_at (mem_CryptoRead n s).2 f path off bytes.
Proof.
  intros H. unfold mem_CryptoRead, attempt.
  destruct (faults s (history s) (CryptoRead n)); exact H.
Qed.

(** The write loop of a pass on MemFS: it stops with the first [m] bytes
    of the file taken from the tiled pattern and the rest as before; [m] is
    the size of the file when the loop returns [nil]. *)
Lemma mem_overwritePass_loop f path pattern (new old : list byte) (N : nat) :
  pattern <> [] -> new = tile pattern N -> length old = N ->
  forall fuel (k : nat) s,
    k * length pattern <= N -> N - k * length pattern < fuel ->
    open_at s f path (Z.of_nat (k * length pattern))
      (mixed new old (k * length pattern)) ->
    exists r s' l m off',
      overwritePass_loop fuel f pattern (Z.of_nat N)
        (Z.of_nat (k * length pattern)) s = (Ret r, s', l) /\
      m <= N /\ (r = None -> m = N) /\
      open_at s' f path off' (mixed new old m).
Proof.
  intros Hne Hnew Hold.
  assert (Hpos : 0 < length pattern)
    by (destruct pattern; simpl; [congruence | lia]).
  assert (Hlen : length new = length old)
    by (rewrite Hnew, tile_length by assumption; lia).
  induction fuel as [| fuel IH]; intros k s Hk Hfuel Hopen; [lia |].
  cbn [overwritePass_loop].
  destruct (Z.ltb_spec (Z.of_nat (k * length pattern)) (Z.of_nat N)) as [Hlt | Hge].
  - set (c := Z.to_nat (min (Z.of_nat (length pattern))
                          (Z.of_nat N - Z.of_nat (k * length pattern)))).
    assert (Hc : Z.of_nat c = min (Z.of_nat (length pattern))
                                (Z.of_nat N - Z.of_nat (k * length pattern))).
    { subst c. unfold min. destruct (Z.ltb_spec (Z.of_nat (length pattern))
           (Z.of_nat N - Z.of_nat (k * length pattern))); lia. }
    rewrite <- Hc.
    assert (Hcle : c <= length pattern /\ k * length pattern + c <= N /\ 0 < c).
    { unfold min in Hc. destruct (Z.ltb_spec (Z.of_nat (length pattern))
           (Z.of_nat N - Z.of_nat (k * length pattern))); lia. }
    destruct Hcle as (Hc1 & Hc2 & Hc3).
    assert (Hchunk : take c pattern = take c (drop (k * length pattern) new)).
    { rewrite Hnew, (tile_chunk pattern N k c) by (assumption || lia).
      rewrite take_app_length' by (rewrite length_take; lia). reflexivity. }
    destruct (mem_Write_at s f path (k * length pattern) _ (take c pattern) Hopen)
      as (r & s1 & n & Hw & Hn & Hrn & Hopen1).
    assert (Hclen : length (take c pattern) = c) by (rewrite length_take; lia).
    rewrite Hclen in Hn, Hrn.
    rewrite Hchunk, take_take, Nat.min_l, write_at_mixed in Hopen1 by lia.
    unfold bind, do_Write, answered.
    change (file_Write f (take c pattern) s) with (mem_Write f (take c pattern) s).
    rewrite Hw. destruct r as [e |].
    + eexists (Some e), s1, _, (k * length pattern + n), _.
      split; [reflexivity |]. split; [lia |]. split; [discriminate | exact Hopen1].
    + specialize (Hrn eq_refl). subst n.
      destruct (decide (c = length pattern)) as [Hfull | Hlast].
      * replace (Z.of_nat (k * length pattern) + Z.of_nat c)%Z
          with (Z.of_nat (S k * length pattern)) by lia.
        replace (k * length pattern + c) with (S k * length pattern) in Hopen1, Hc2 by lia.
        destruct (IH (S k) s1 Hc2 ltac:(lia) Hopen1)
          as (r & s2 & l2 & m & off' & Hrun & Hm & Hr & Hopen2).
        rewrite Hrun. eexists r, s2, _, m, off'.
        split; [reflexivity |]. split; [exact Hm |]. split; [exact Hr | exact Hopen2].
      * assert (k * length pattern + c = N) as HN.
        { unfold min in Hc. destruct (Z.ltb_spec (Z.of_nat (length pattern))
             (Z.of_nat N - Z.of_nat (k * length pattern))); lia. }
        rewrite overwritePass_loop_done by lia.
        rewrite HN in Hopen1.
        eexists None, s1, _, N, _. split; [reflexivity |]. split; [lia |].
        split; [reflexivity | exact Hopen1].
  - assert (k * length pattern = N) as HN by lia. rewrite HN in Hopen.
    eexists None, s, _, N, _. split; [reflexivity |]. split; [lia |].
    split; [reflexivity | exact Hopen].
Qed.

(** One pass on MemFS. *)
Lemma mem_overwritePass fuel w f path pattern (old : list byte) (off : Z) s :
  pattern <> [] -> length old < fuel ->
  open_at s f path off old ->
  exists r s' l m off',
    overwritePass fuel w f pattern (Z.of_nat (length old)) s = (Ret r, s', l) /\
    m <= length old /\ (r = None -> m = length old) /\
    open_at s' f path off' (mixed (tile pattern (length old)) old m).
Proof.
  intros Hne Hfuel Hopen.
  destruct (mem_Seek_start s f path off old Hopen)
    as (r0 & s1 & off1 & Hseek & Hopen1 & Hoff1).
  unfold overwritePass, bind, do_Seek, answered.
  change (file_Seek f 0 0 s) with (mem_Seek f 0 0 s). rewrite Hseek.
  destruct r0 as [n | e].
  - rewrite (Hoff1 eq_refl) in Hopen1.
    destruct (mem_overwritePass_loop f path pattern (tile pattern (length old)) old
                (length old) Hne eq_refl eq_refl fuel 0 s1)
      as (r & s2 & l & m & off' & Hrun & Hm & Hr & Hopen2);
      [simpl; lia | simpl; lia | rewrite mixed_0; exact Hopen1 |].
    change (Z.of_nat (0 * length pattern)) with 0%Z in Hrun. cbn [res_err].
    rewrite Hrun. eexists r, s2, _, m, off'. split; [reflexivity |].
    split; [exact Hm |]. split; [exact Hr | exact Hopen2].
  - eexists (Some e), s1, _, 0, off1. split; [reflexivity |].
    split; [lia |]. split; [discriminate |]. rewrite mixed_0. exact Hopen1.
Qed.


Lemma before_pass_cons pattern rest cur (n j : nat) :
  before_pass (pattern :: rest) cur n (S j) = before_pass rest (tile pattern n) n j.
Proof. destruct j; reflexivity. Qed.

Section MemPasses.
Context {lib : Lib}.

Lemma mem_reportProgress w (startTime : Time) (n i : Z) s f path (off : Z) bytes :
  open_at s f path off bytes ->
  exists s' l,
    reportProgress w startTime n i s = (Ret tt, s', l) /\
    open_at s' f path off bytes.
Proof.
  intros Hopen. unfold reportProgress.
  destruct ((Z.rem (i + 1) ProgressUpdateInterval =? 0)%Z || (i =? 0)%Z
            || (i =? n - 1)%Z).
  - unfold bind, do_Now, do_Sleep, updateProgress, answered.
    eexists _, _. split; [reflexivity |]. exact Hopen.
  - exists s, []. split; [reflexivity | exact Hopen].
Qed.

(** The pass loop on MemFS, over a file of [N] bytes holding [cur]: when it
    returns [nil] the file holds the last pattern, tiled; when it returns the
    error of pass [j] the file holds [m] bytes of the pattern of that pass
    and, from there on, what it held before the pass. *)
Lemma mem_gutmannPasses fuel w f path (startTime : Time) (n : Z) (N : nat) :
  N < fuel ->
  forall (rest : list (list byte)) (i : Z) s (cur : list byte) (off : Z),
    Forall (fun p => p <> []) rest -> length cur = N ->
    open_at s f path off cur ->
    exists r s' l,
      gutmannPasses fuel w f (Z.of_nat N) startTime n i rest s = (Ret r, s', l) /\
      match r with
      | None =>
          exists off', open_at s' f path off' (before_pass rest cur N (length rest))
      | Some e =>
          exists (j : nat) p (m : nat) e0 off',
            rest !! j = Some p /\
            e = "Pass " +:+ dec (i + Z.of_nat j + 1) +:+ " failed: " +:+ e0 /\
            m <= N /\
            open_at s' f path off' (mixed (tile p N) (before_pass rest cur N j) m)
      end.
Proof.
  intros Hfuel. induction rest as [| pattern rest IH]; intros i s cur off Hne Hcur Hopen.
  - exists None, s, []. split; [reflexivity |]. exists off. exact Hopen.
  - apply Forall_cons in Hne as [Hp Hne]. subst N.
    cbn [gutmannPasses]. unfold bind at 1.
    destruct (mem_overwritePass fuel w f path pattern cur off s Hp Hfuel Hopen)
      as (r & s1 & l1 & m & off1 & -> & Hm & Hr & Hopen1).
    destruct r as [e |].
    + eexists _, s1, _. split; [reflexivity |].
      exists 0, pattern, m, e, off1. split; [reflexivity |].
      split; [do 2 f_equal; f_equal; lia |]. split; [exact Hm | exact Hopen1].
    + rewrite (Hr eq_refl), mixed_all in Hopen1
        by (rewrite tile_length by assumption; reflexivity).
      unfold bind, do_Sync, answered.
      change (file_Sync f s1) with (mem_Sync f s1).
      pose proof (mem_Sync_frame s1 f path off1 _ f Hopen1) as Hopen2.
      destruct (mem_Sync f s1) as [serr s2]. cbn [snd] in Hopen2.
      assert (Hst : exists l0,
                 match serr with
                 | Some err =>
                     updateStatus w
                       ("⚠️ Sync warning pass " +:+ dec (i + 1) +:+ ": " +:+ err)
                 | None => ret tt
                 end s2 = (Ret tt, s2, l0)).
      { destruct serr; eexists; reflexivity. }
      destruct Hst as (l0 & ->).
      destruct (mem_reportProgress w startTime n i s2 f path off1 _ Hopen2)
        as (s3 & l3 & -> & Hopen3).
      destruct (IH (i + 1)%Z s3 (tile pattern (length cur)) off1 Hne
                  ltac:(apply tile_length; assumption) Hopen3)
        as (r & s4 & l4 & -> & Hres).
      eexists r, s4, _. split; [reflexivity |].
      destruct r as [e |].
      * destruct Hres as (j & p & m' & e0 & off' & Hj & -> & Hm' & Hopen4).
        exists (S j), p, m', e0, off'. split; [exact Hj |].
        split; [do 2 f_equal; f_equal; lia |]. split; [exact Hm' |].
        rewrite before_pass_cons. exact Hopen4.
      * destruct Hres as (off' & Hopen4). exists off'.
        cbn [length]. rewrite before_pass_cons. exact Hopen4.
Qed.

(** Building the table leaves the files and the handles alone. *)
Lemma mem_gutmannFill_frame fuel f path (off : Z) bytes :
  forall (patterns : list (list byte)) s,
    open_at s f path off bytes ->
    open_at (world_of (gutmannFill fuel patterns s)) f path off bytes.
Proof.
  induction fuel as [| fuel IH]; intros patterns s Hopen; [exact Hopen |].
  cbn [gutmannFill]. destruct (Z.of_nat (length patterns) <? 35)%Z; [| exact Hopen].
  unfold bind, randomBytes. destruct (BlockSize <? 0)%Z; [exact Hopen |].
  unfold bind, do_CryptoRead, answered.
  change (cryptorand_Read (Z.to_nat BlockSize) s)
    with (mem_CryptoRead (Z.to_nat BlockSize) s).
  pose proof (mem_CryptoRead_frame s f path off bytes (Z.to_nat BlockSize) Hopen)
    as Hopen1.
  destruct (mem_CryptoRead (Z.to_nat BlockSize) s) as [[block | e] s1];
    cbn [snd] in Hopen1; cbn; [| exact Hopen1].
  specialize (IH (patterns ++ [resize (Z.to_nat BlockSize) x00 block]) s1 Hopen1).
  destruct (gutmannFill fuel _ s1) as [[o s2] l2]. exact IH.
Qed.

Lemma mem_gutmannPatterns_frame fuel f path (off : Z) bytes s :
  (Z.to_nat BlockSize < fuel) ->
  open_at s f path off bytes ->
  open_at (world_of (gutmannPatterns fuel s)) f path off bytes.
Proof.
  intros Hfuel Hopen. unfold gutmannPatterns, bind, lift.
  rewrite gutmannFixed_closed by assumption.
  pose proof (mem_gutmannFill_frame fuel f path off bytes fixedPatterns s Hopen) as H.
  destruct (gutmannFill fuel fixedPatterns s) as [[o s2] l2]. exact H.
Qed.

Lemma mem_Close_content f path s :
  content path (mem_Close f s).2 = content path s.
Proof.
  unfold mem_Close, attempt. destruct (faults s (history s) (Close f)); [reflexivity |].
  cbn. destruct (handles s !! f); reflexivity.
Qed.



End MemPasses.

End MemOverwrite.




(** What the interrupted pass 2 leaves of the ten bytes: four bytes of
    pattern 2 (0xFF), then six of pattern 1 (0x00). *)
Example interruptedRun_content :
  MemFS.content "f" (world_of interruptedRun)
  = Some [xff; xff; xff; xff; x00; x00; x00; x00; x00; x00].
Proof.
  unfold interruptedRun, wipeOn, gutmannWipe, gutmannPatterns.
  rewrite gutmannFixed_closed by lia. vm_compute. reflexivity.
Qed.


(** * Further properties *)

(** ** Edge cases of [bytesRepeat] and [randomBytes] *)

Lemma bytesRepeat_loop_empty (size : Z) : 0 < size ->
  forall fuel, bytesRepeat_loop fuel [] size [] = OutOfFuel.
Proof.
  intros Hsize. induction fuel as [| fuel IH]; [reflexivity |].
  cbn [bytesRepeat_loop length]. destruct (Z.ltb_spec (Z.of_nat 0) size); [| lia].
  exact IH.
Qed.

(** X1. With an empty pattern and a positive size [bytesRepeat] never
    returns: the loop appends nothing, so no amount of fuel is enough. *)
Theorem bytesRepeat_empty_pattern_diverges (fuel : nat) (size : Z) :
  0 < size -> bytesRepeat fuel [] size = OutOfFuel.
Proof.
  intros Hsize. unfold bytesRepeat. destruct (Z.ltb_spec size 0); [lia |].
  apply bytesRepeat_loop_empty, Hsize.
Qed.

(** One byte asked of the empty pattern, with a thousand units of fuel. *)
Lemma bytesRepeat_empty_pattern_diverges_witness :
  0 < 1 /\ bytesRepeat 1000 [] 1 = OutOfFuel.
Proof.
  assert (H : 0 < 1) by lia.
  exact (conj H (bytesRepeat_empty_pattern_diverges 1000 1 H)).
Defined.

Section RandomBytes.
Context {W : Type} {os : OS W}.



End RandomBytes.


(** ** More on one overwrite pass *)

Section PassMore.
Context {W : Type} {os : OS W}.
Implicit Types (w : AdvancedWiper) (file : File) (pattern : list byte) (s : W).



(** The write loop from [k] whole patterns on: the chunks still to come. *)
Lemma overwritePass_loop_chunks file pattern (N : nat) :
  pattern <> [] ->
  forall fuel (k : nat) s,
    (k * length pattern <= N)%nat ->
    (N - k * length pattern < fuel)%nat ->
    exists r s' l,
      overwritePass_loop fuel file pattern (Z.of_nat N)
        (Z.of_nat (k * length pattern)) s = (Ret r, s', l) /\
      (r = None ->
         (write_calls l).*1
         = replicate (N / length pattern - k) pattern
           ++ (if (N mod length pattern =? 0)%nat then []
               else [take (N mod length pattern) pattern])).
Proof.
  intros Hne.
  assert (Hpos : (0 < length pattern)%nat)
    by (destruct pattern; simpl; [congruence | lia]).
  pose proof (Nat.div_mod_eq N (length pattern)) as Hdm.
  pose proof (Nat.mod_upper_bound N (length pattern) ltac:(lia)) as Hmod.
  induction fuel as [| fuel IH]; intros k s Hk Hfuel; [lia |].
  cbn [overwritePass_loop].
  destruct (Z.ltb_spec (Z.of_nat (k * length pattern)) (Z.of_nat N)) as [Hlt | Hge].
  - unfold bind, do_Write, answered.
    destruct (file_Write file _ s) as [[e |] s1] eqn:Hw.
    + eexists (Some e), s1, _. split; [reflexivity | discriminate].
    + unfold min.
      destruct (Z.ltb_spec (Z.of_nat (length pattern))
                  (Z.of_nat N - Z.of_nat (k * length pattern))) as [Hfull | Hlast].
      * replace (Z.of_nat (k * length pattern) + Z.of_nat (length pattern))
          with (Z.of_nat (S k * length pattern)) by lia.
        destruct (IH (S k) s1 ltac:(lia) ltac:(lia)) as (r & s2 & l2 & Hrun & Hr).
        rewrite Hrun. eexists r, s2, _. split; [reflexivity |].
        intros ->. cbn [id app]. rewrite write_calls_write, fmap_cons, (Hr eq_refl).
        cbn [fst]. rewrite Nat2Z.id, take_ge by lia.
        assert (S k <= N / length pattern)%nat as Hq
          by (apply Nat.div_le_lower_bound; lia).
        replace (N / length pattern - k)%nat with (S (N / length pattern - S k)) by lia.
        reflexivity.
      * assert (Hrest : (N - k * length pattern <= length pattern)%nat) by lia.
        rewrite overwritePass_loop_done by lia.
        eexists None, s1, _. split; [reflexivity |]. intros _.
        cbn [id app]. rewrite write_calls_write. cbn [fmap list_fmap write_calls omap list_omap fst].
        replace (Z.to_nat (Z.of_nat N - Z.of_nat (k * length pattern)))
          with (N - k * length pattern)%nat by lia.
        destruct (decide (N - k * length pattern = length pattern)%nat) as [Heq | Hneq].
        -- assert (N = S k * length pattern)%nat as HN by lia.
           rewrite HN, Nat.div_mul, Nat.Div0.mod_mul by lia.
           replace (S k - k)%nat with 1%nat by lia. cbn.
           f_equal. apply take_ge. lia.
        -- assert (Hq : (N / length pattern = k)%nat).
           { symmetry. apply (Nat.div_unique N (length pattern) k (N - k * length pattern)); lia. }
           assert (Hr : (N mod length pattern = N - k * length pattern)%nat).
           { symmetry. apply (Nat.mod_unique N (length pattern) k (N - k * length pattern)); lia. }
           rewrite Hq, Hr, Nat.sub_diag. cbn [replicate app].
           destruct (Nat.eqb_spec (N - k * length pattern) 0); [lia | reflexivity].
  - eexists None, s, []. split; [reflexivity |]. intros _.
    assert (N = k * length pattern)%nat as HN by lia.
    rewrite HN, Nat.div_mul, Nat.Div0.mod_mul, Nat.sub_diag by lia. reflexivity.
Qed.

(** X4. For a non-empty pattern and enough fuel, a pass that returns [nil]
    over a file of [N] bytes has written the whole pattern [N / len] times
    and then, when [N] is not a multiple of the pattern length, its
    prefix of [N mod len] bytes: that many [Write] calls and no other. *)
Theorem overwritePass_chunks fuel w file pattern (N : nat) s s' l :
  pattern <> [] -> (N < fuel)%nat ->
  overwritePass fuel w file pattern (Z.of_nat N) s = (Ret None, s', l) ->
  (write_calls l).*1 = chunksOf pattern N.
Proof.
  intros Hne Hfuel. unfold overwritePass, bind, do_Seek, answered.
  destruct (file_Seek file 0 0 s) as [[off | e] s1]; [| discriminate].
  destruct (overwritePass_loop_chunks file pattern N Hne fuel 0 s1)
    as (r & s2 & l2 & Hrun & Hr); [simpl; lia | simpl; lia |].
  change (Z.of_nat (0 * length pattern)) with 0 in Hrun. rewrite Hrun.
  intros [= -> <- <-].
  change (write_calls (Called (Seek file 0 0) None :: l2)) with (write_calls l2).
  rewrite (Hr eq_refl), Nat.sub_0_r. reflexivity.
Qed.

(** Whatever the fuel and the outcome, the write loop only writes
    prefixes of the pattern to the file. *)
Lemma overwritePass_loop_events file pattern (fileSize : Z) :
  forall fuel (bytesWritten : Z) s,
    Forall (is_chunk file pattern)
      (log_of (overwritePass_loop fuel file pattern fileSize bytesWritten s)).
Proof.
  induction fuel as [| fuel IH]; intros bw s; [constructor |].
  cbn [overwritePass_loop]. destruct (bw <? fileSize); [| constructor].
  unfold bind, do_Write, answered.
  destruct (file_Write file _ s) as [[e1 |] s1].
  - repeat constructor. eexists _, _. reflexivity.
  - specialize (IH (bw + min (Z.of_nat (length pattern)) (fileSize - bw)) s1).
    destruct (overwritePass_loop fuel file pattern fileSize _ s1) as [[o s2] l2].
    destruct o; (constructor; [eexists _, _; reflexivity | exact IH]).
Qed.

(** The write loop when it returns an error: the failed [Write] is its
    last event and every write before it succeeded. *)
Lemma overwritePass_loop_stops file pattern (fileSize : Z) :
  forall fuel (bytesWritten : Z) s e s' l,
    overwritePass_loop fuel file pattern fileSize bytesWritten s
    = (Ret (Some e), s', l) ->
    exists l0 chunk,
      l = l0 ++ [Called (Write file chunk) (Some e)] /\ all_succeeded l0.
Proof.
  induction fuel as [| fuel IH]; intros bw s e s' l; [discriminate |].
  cbn [overwritePass_loop]. destruct (bw <? fileSize); [| discriminate].
  unfold bind, do_Write, answered.
  destruct (file_Write file _ s) as [[e1 |] s1].
  - intros [= <- <- <-]. eexists [], _. split; [reflexivity | constructor].
  - destruct (overwritePass_loop fuel file pattern fileSize _ s1)
      as [[o s2] l2] eqn:Hrun.
    destruct o as [r | msg |]; try discriminate.
    intros [= -> <- <-].
    destruct (IH _ s1 e s2 l2 Hrun) as (l0 & chunk & -> & Hl0).
    eexists (_ :: l0), chunk. split; [reflexivity |].
    constructor; [exact I | exact Hl0].
Qed.

(** X5. A pass that returns an error stops at the call that failed: that
    call, the seek or a write, is the last of the pass, it failed with the
    very error returned, and every call before it succeeded.  A failed seek
    means that nothing was written. *)
Theorem overwritePass_stops_at_failure fuel w file pattern (fileSize : Z) s e s' l :
  overwritePass fuel w file pattern fileSize s = (Ret (Some e), s', l) ->
  exists l0 c,
    l = l0 ++ [Called c (Some e)] /\ all_succeeded l0 /\
    ((c = Seek file 0 0 /\ l0 = [])
     \/ (exists chunk, c = Write file chunk /\ seek_calls l0 = [(0, 0, None)])).
Proof.
  unfold overwritePass, bind, do_Seek, answered.
  destruct (file_Seek file 0 0 s) as [[off | e0] s1].
  - destruct (overwritePass_loop fuel file pattern fileSize 0 s1)
      as [[o s2] l2] eqn:Hrun.
    destruct o as [r | msg |]; try discriminate. intros [= -> <- <-].
    destruct (overwritePass_loop_stops file pattern fileSize fuel 0 s1 e s2 l2 Hrun)
      as (l0 & chunk & -> & Hl0).
    exists (Called (Seek file 0 0) None :: l0), (Write file chunk).
    split; [reflexivity |]. split; [constructor; [exact I | exact Hl0] |].
    right. exists chunk. split; [reflexivity |].
    pose proof (overwritePass_loop_events file pattern fileSize fuel 0 s1) as Hev.
    rewrite Hrun in Hev. cbn [log_of snd] in Hev.
    apply Forall_app in Hev as [Hev _].
    change (seek_calls (Called (Seek file 0 0) None :: l0))
      with ((0, 0, None) :: seek_calls l0).
    f_equal. clear -Hev. induction Hev as [| ev l (n & err & ->) _ IH];
      [reflexivity | exact IH].
  - intros [= <- <- <-]. exists [], (Seek file 0 0).
    split; [reflexivity |]. split; [constructor |]. left. split; reflexivity.
Qed.

End PassMore.


(** A 3-byte pattern over 7 bytes: twice the pattern, then its first
    byte. *)
Lemma overwritePass_chunks_witness :
  exists l,
    [x92; x49; x24] <> [] /\ (7 < 8)%nat /\
    overwritePass (os := scripted (fun _ => None) 7) 8 (mkWiper []) 3%nat
      [x92; x49; x24] (Z.of_nat 7) tt = (Ret None, tt, l) /\
    (write_calls l).*1 = chunksOf [x92; x49; x24] 7.
Proof.
  assert (H1 : [x92; x49; x24] <> []) by discriminate.
  assert (H2 : (7 < 8)%nat) by lia.
  assert (H3 : exists l,
             overwritePass (os := scripted (fun _ => None) 7) 8 (mkWiper []) 3%nat
               [x92; x49; x24] (Z.of_nat 7) tt = (Ret None, tt, l))
    by (eexists; vm_compute; reflexivity).
  destruct H3 as [l H3]. exists l.
  split; [exact H1 |]. split; [exact H2 |]. split; [exact H3 |].
  exact (overwritePass_chunks (os := scripted (fun _ => None) 7) 8 (mkWiper [])
           3%nat [x92; x49; x24] 7 tt tt l H1 H2 H3).
Defined.

(** A pass whose writes fail: it stops at the first one. *)
Lemma overwritePass_stops_at_failure_witness :
  exists l,
    overwritePass (os := scripted writes_fail 7) 8 (mkWiper []) 3%nat
      [x92; x49; x24] 7 tt = (Ret (Some "no space left on device"), tt, l) /\
    exists l0 c,
      l = l0 ++ [Called c (Some "no space left on device")] /\ all_succeeded l0 /\
      ((c = Seek 3%nat 0 0 /\ l0 = [])
       \/ (exists chunk, c = Write 3%nat chunk /\ seek_calls l0 = [(0, 0, None)])).
Proof.
  assert (H : exists l,
             overwritePass (os := scripted writes_fail 7) 8 (mkWiper []) 3%nat
               [x92; x49; x24] 7 tt = (Ret (Some "no space left on device"), tt, l))
    by (eexists; vm_compute; reflexivity).
  destruct H as [l H]. exists l. split; [exact H |].
  exact (overwritePass_stops_at_failure (os := scripted writes_fail 7) 8 (mkWiper [])
           3%nat [x92; x49; x24] 7 tt _ tt l H).
Defined.

(** ** More on the encryption *)

Section EncryptMore.
Context {W : Type} {os : OS W} {lib : Lib}.

(** X6. With a key that is not 16, 24 or 32 bytes long [encryptFile]
    returns an error and leaves the file alone: it has made no call that
    changes a file and has not read the random source.  When [Stat] and
    [ReadFile] succeeded the error is the wrapped error of [aes.NewCipher],
    which names the key size. *)
Theorem encryptFile_invalid_key (w : AdvancedWiper) (path : string) (s : W) :
  length (encryptionKey w) <> 16%nat ->
  length (encryptionKey w) <> 24%nat ->
  length (encryptionKey w) <> 32%nat ->
  exists e s' l,
    encryptFile w path s = (Ret (Some e), s', l) /\
    mutations l = [] /\
    Forall (fun ev => ~ is_random ev) l /\
    (all_succeeded l ->
     e = "AES cipher creation failed: crypto/aes: invalid key size "
         +:+ dec (Z.of_nat (length (encryptionKey w)))).
Proof.
  intros H16 H24 H32.
  assert (Hkey : aes_NewCipher (encryptionKey w)
                 = Err ("crypto/aes: invalid key size "
                        +:+ dec (Z.of_nat (length (encryptionKey w))))).
  { unfold aes_NewCipher.
    destruct (Z.eqb_spec (Z.of_nat (length (encryptionKey w))) 16); [lia |].
    destruct (Z.eqb_spec (Z.of_nat (length (encryptionKey w))) 24); [lia |].
    destruct (Z.eqb_spec (Z.of_nat (length (encryptionKey w))) 32); [lia |].
    reflexivity. }
  assert (Hnr : forall c err, (forall n, c <> CryptoRead n) ->
                  ~ is_random (Called c err)).
  { intros c err Hc (n & err' & Heq). injection Heq as -> _. exact (Hc n eq_refl). }
  unfold encryptFile, bind, updateStatus, do_Stat, do_ReadFile, answered.
  destruct (os_Stat path s) as [[fileInfo | e1] s1].
  - destruct (os_ReadFile path s1) as [[originalData | e2] s2].
    + rewrite Hkey. eexists _, s2, _. split; [reflexivity |].
      split; [reflexivity |]. split.
      * repeat constructor; try (apply Hnr; discriminate).
        intros (n & err & Heq); discriminate.
      * intros _. reflexivity.
    + eexists _, s2, _. split; [reflexivity |]. split; [reflexivity |]. split.
      * repeat constructor; try (apply Hnr; discriminate).
        intros (n & err & Heq); discriminate.
      * intros Hall. exfalso. unfold all_succeeded in Hall. cbn in Hall.
        rewrite !Forall_cons in Hall. cbn in Hall. tauto.
  - eexists _, s1, _. split; [reflexivity |]. split; [reflexivity |]. split.
    + repeat constructor; try (apply Hnr; discriminate).
      intros (n & err & Heq); discriminate.
    + intros Hall. exfalso. unfold all_succeeded in Hall. cbn in Hall.
      rewrite !Forall_cons in Hall. cbn in Hall. tauto.
Qed.

End EncryptMore.

Section MemEncryptMore.
Import MemFS.
Context {lib : Lib}.

(** X7. On MemFS, whatever faults are injected: when [encryptFile] returns
    [nil] the file existed, and it now holds the nonce (the next 12 bytes of
    the random source) followed by the sealed old content; its access time
    and its modification time are both the old modification time (the old
    access time is lost); no other file and no handle has changed. *)
Theorem encryptFile_result (w : AdvancedWiper) (path : string)
    (s s' : world) (l : list event) :
  encryptFile w path s = (Ret None, s', l) ->
  exists ino nonce,
    files s !! path = Some ino /\
    nonce = entropy s <$> seq (entropy_pos s) 12 /\
    files s'
    = <[path := mkInode (nonce ++ gcm_Seal (encryptionKey w) nonce (data ino))
                  (mtime ino) (mtime ino)]> (files s) /\
    handles s' = handles s.
Proof.
  unfold encryptFile, bind, updateStatus, do_Stat, do_ReadFile, do_CryptoRead,
    do_WriteFile, do_Chtimes, answered, ret.
  cbn [os_Stat os_ReadFile os_WriteFile os_Chtimes cryptorand_Read memfs].
  unfold mem_Stat, mem_ReadFile, mem_WriteFile, mem_Chtimes, mem_CryptoRead, attempt.
  unfold aes_NewCipher, cipher_NewGCM.
  cbn. intros Hrun.
  repeat (case_match; simplify_eq; cbn in * ).
  all: eexists _, _; split; [reflexivity |]; split; [reflexivity |].
  all: rewrite insert_insert_eq.
  all: split; [| reflexivity].
  all: rewrite lookup_insert_eq in *; simplify_eq; cbn.
  all: reflexivity.
Qed.


End MemEncryptMore.

(** A 1-byte key on a system where nothing fails. *)
Lemma encryptFile_invalid_key_witness :
  length (encryptionKey (mkWiper [x01])) <> 16%nat /\
  length (encryptionKey (mkWiper [x01])) <> 24%nat /\
  length (encryptionKey (mkWiper [x01])) <> 32%nat /\
  exists e s' l,
    encryptFile (os := scripted (fun _ => None) 3) (lib := plainLib)
      (mkWiper [x01]) "f" tt = (Ret (Some e), s', l) /\
    mutations l = [] /\
    Forall (fun ev => ~ is_random ev) l /\
    (all_succeeded l ->
     e = "AES cipher creation failed: crypto/aes: invalid key size "
         +:+ dec (Z.of_nat (length (encryptionKey (mkWiper [x01]))))).
Proof.
  assert (H16 : length (encryptionKey (mkWiper [x01])) <> 16%nat) by discriminate.
  assert (H24 : length (encryptionKey (mkWiper [x01])) <> 24%nat) by discriminate.
  assert (H32 : length (encryptionKey (mkWiper [x01])) <> 32%nat) by discriminate.
  split; [exact H16 |]. split; [exact H24 |]. split; [exact H32 |].
  exact (encryptFile_invalid_key (os := scripted (fun _ => None) 3) (lib := plainLib)
           (mkWiper [x01]) "f" tt H16 H24 H32).
Defined.

(** A 3-byte file last modified at time 42 and the clock at 100. *)
Lemma encryptFile_result_witness :
  exists s' l,
    encryptFile (os := MemFS.memfs) (lib := plainLib) zeroKeyWiper "f"
      (MemFS.oneFile "f" [x61; x62; x63] 42 MemFS.no_faults) = (Ret None, s', l) /\
    exists ino nonce,
      MemFS.files (MemFS.oneFile "f" [x61; x62; x63] 42 MemFS.no_faults) !! "f"
      = Some ino /\
      nonce = (fun _ => x00) <$> seq 0 12 /\
      MemFS.files s'
      = <["f" := MemFS.mkInode
                   (nonce ++ gcm_Seal (Lib := plainLib) (encryptionKey zeroKeyWiper)
                               nonce (MemFS.data ino))
                   (MemFS.mtime ino) (MemFS.mtime ino)]>
          (MemFS.files (MemFS.oneFile "f" [x61; x62; x63] 42 MemFS.no_faults)) /\
      MemFS.handles s' = ∅.
Proof.
  assert (Hrun : exists s' l,
             encryptFile (os := MemFS.memfs) (lib := plainLib) zeroKeyWiper "f"
               (MemFS.oneFile "f" [x61; x62; x63] 42 MemFS.no_faults)
             = (Ret None, s', l))
    by (eexists _, _; vm_compute; reflexivity).
  destruct Hrun as (s' & l & Hrun). exists s', l. split; [exact Hrun |].
  exact (encryptFile_result (lib := plainLib) zeroKeyWiper "f" _ s' l Hrun).
Defined.


(** ** The footprint of [gutmannWipe] *)

Section WipeMore.
Context {W : Type} {os : OS W} {lib : Lib}.
Implicit Types (w : AdvancedWiper) (file : File) (s : W).










Lemma mutations_app l1 l2 : mutations (l1 ++ l2) = mutations l1 ++ mutations l2.
Proof. apply omap_app. Qed.




End WipeMore.




(** ** [gutmannWipe] on MemFS, every outcome *)

Section MemWipeMore.
Import MemFS.
Local Open Scope nat_scope.
Context {lib : Lib}.
Implicit Types (s : world) (f : File) (path : string) (bytes old : list byte).

Lemma mixed_length (new old : list byte) (m : nat) :
  length new = length old -> m <= length old ->
  length (mixed new old m) = length old.
Proof.
  intros Hlen Hm. unfold mixed. rewrite length_app, length_take, length_drop. lia.
Qed.

Lemma before_pass_length (rest : list (list byte)) (cur : list byte) (n j : nat) :
  Forall (fun p => p <> []) rest -> length cur = n -> j <= length rest ->
  length (before_pass rest cur n j) = n.
Proof.
  intros Hne Hcur Hj. destruct j as [| j]; [exact Hcur |].
  cbn [before_pass]. apply tile_length.
  destruct (lookup_lt_is_Some_2 rest j ltac:(lia)) as [p Hp].
  rewrite (nth_lookup_Some _ _ _ _ Hp).
  exact (proj1 (Forall_lookup _ _) Hne j p Hp).
Qed.

(** [gutmannWipe] on MemFS, whatever faults are injected and however it
    ends: the file keeps its length; a panic leaves it as it was; success
    leaves the last entry of the table, a random block, tiled. *)
Lemma mem_gutmannWipe_any fuel w path s (old : list byte) o s' l :
  content path s = Some old ->
  Z.to_nat BlockSize < fuel -> length old < fuel ->
  gutmannWipe fuel w path s = (o, s', l) ->
  o <> OutOfFuel /\
  exists bytes,
    content path s' = Some bytes /\ length bytes = length old /\
    (forall msg, o = Panic msg -> bytes = old) /\
    (o = Ret None ->
     exists extra p,
       length extra = 24 /\
       Forall (fun block => Z.of_nat (length block) = BlockSize) extra /\
       last extra = Some p /\
       bytes = tile p (length old)).
Proof.
  intros Hold Hfuel Hsize. unfold content in Hold.
  destruct (files s !! path) as [ino |] eqn:Hf; [| discriminate].
  injection Hold as <-.
  unfold gutmannWipe. unfold bind at 1. unfold do_OpenFile, answered.
  change (os_OpenFile path O_WRONLY 0 s) with (mem_OpenFile path O_WRONLY 0 s).
  unfold mem_OpenFile, attempt.
  destruct (faults s (history s) (OpenFile path O_WRONLY 0)) as [ft |].
  { cbn. intros [= <- <- <-]. split; [discriminate |]. exists (data ino).
    split; [unfold content; cbn; rewrite Hf; reflexivity |].
    split; [reflexivity |]. split; [discriminate | discriminate]. }
  cbn [files handles history]. rewrite Hf.
  change (Z.land O_WRONLY O_TRUNC =? 0)%Z with true. cbv iota. cbn [res_err].
  set (fd := fresh_handle (handles s)).
  match goal with
  | |- context [defer _ _ ?s1] => set (s1' := s1)
  end.
  assert (Hopen : open_at s1' fd path 0 (data ino)).
  { subst s1'. unfold open_at, content. cbn. rewrite lookup_insert_eq, Hf. auto. }
  clearbody s1'.
  match goal with
  | |- context [defer _ ?b s1'] => set (body := b)
  end.
  assert (Hbody : exists o2 s2 l2 bytes,
             body s1' = (o2, s2, l2) /\ o2 <> OutOfFuel /\
             content path s2 = Some bytes /\ length bytes = length (data ino) /\
             (forall msg, o2 = Panic msg -> bytes = data ino) /\
             (o2 = Ret None ->
              exists extra p,
                length extra = 24 /\
                Forall (fun block => Z.of_nat (length block) = BlockSize) extra /\
                last extra = Some p /\
                bytes = tile p (length (data ino)))).
  { subst body. unfold bind at 1. unfold do_FStat, answered.
    change (file_Stat fd s1') with (mem_FStat fd s1').
    unfold mem_FStat, attempt.
    destruct Hopen as [Hh Hc]. unfold content in Hc.
    destruct (files s1' !! path) as [ino' |] eqn:Hf'; [| discriminate].
    injection Hc as Hc.
    destruct (faults s1' (history s1') (FStat fd)) as [ft |].
    { eexists _, _, _, (data ino). split; [reflexivity |]. split; [discriminate |].
      split; [unfold content; cbn; rewrite Hf'; exact (f_equal Some Hc) |].
      split; [reflexivity |]. split; [reflexivity | discriminate]. }
    unfold opened. cbn [files handles history]. rewrite Hh, Hf'.
    cbn [res_err info_of Size].
    match goal with
    | |- context [bind _ _ ?s2] => set (s2' := s2)
    end.
    assert (Hopen2 : open_at s2' fd path 0 (data ino)).
    { subst s2'. split; [exact Hh |]. unfold content. cbn. rewrite Hf'.
      exact (f_equal Some Hc). }
    clearbody s2'. rewrite Hc.
    unfold bind at 1. unfold updateStatus at 1.
    unfold bind at 1. unfold updateStatus at 1.
    unfold bind at 1.
    pose proof (mem_gutmannPatterns_frame fuel fd path 0 _ s2' Hfuel Hopen2) as Hopen3.
    assert (Htable : ends (outcome_of (gutmannPatterns fuel s2'))
                       (fun table =>
                          exists extra, table = fixedPatterns ++ extra /\
                            length extra = 24 /\
                            Forall (fun block => Z.of_nat (length block) = BlockSize)
                              extra)
                       True).
    { unfold gutmannPatterns, bind, lift. rewrite gutmannFixed_closed by assumption.
      pose proof (gutmannFill_blocks fuel fixedPatterns s2') as Hfill.
      rewrite fixedPatterns_length in Hfill.
      specialize (Hfill ltac:(rewrite BlockSize_value in Hfuel; lia)).
      unfold ends in Hfill |- *.
      destruct (gutmannFill fuel fixedPatterns s2') as [[[table | msg |] s3] l3];
        cbn in Hfill |- *; [exact Hfill | exact I | exact Hfill]. }
    pose proof (gutmannPatterns_entries fuel s2' Hfuel) as Hentries.
    unfold ends in Htable, Hentries.
    destruct (gutmannPatterns fuel s2') as [[[table | msg |] s3] l3];
      cbn [outcome_of world_of fst snd] in Htable, Hentries, Hopen3;
      [| | contradiction].
    2: { eexists _, _, _, (data ino). split; [reflexivity |]. split; [discriminate |].
         split; [exact (proj2 Hopen3) |]. split; [reflexivity |].
         split; [reflexivity | discriminate]. }
    destruct Htable as (extra & Htab & Hextra & Hblocks).
    destruct Hentries as (Hlen & Hne & _).
    unfold bind at 1. unfold updateStatus at 1.
    unfold bind at 1. unfold do_Now, answered.
    change (time_Now s3) with (mem_Now s3).
    pose proof (mem_Now_frame s3 fd path 0 _ Hopen3) as Hopen4.
    destruct (mem_Now s3) as [startTime s4]. cbn [snd] in Hopen4.
    unfold bind at 1.
    destruct (mem_gutmannPasses fuel w fd path startTime (Z.of_nat (length table))
                (length (data ino)) Hsize table 0%Z s4 (data ino) 0%Z Hne eq_refl Hopen4)
      as (r & s5 & l5 & -> & Hres).
    destruct r as [e' |].
    - destruct Hres as (j & p & m & e0 & off' & Hj & -> & Hm & [_ Hcontent]).
      eexists _, _, _, _. split; [reflexivity |]. split; [discriminate |].
      split; [exact Hcontent |]. split; [| split; discriminate].
      assert (Hp : p <> []) by exact (proj1 (Forall_lookup _ _) Hne j p Hj).
      assert (Hjlt : j < length table) by (eapply lookup_lt_Some; exact Hj).
      assert (Hbefore : length (before_pass table (data ino) (length (data ino)) j)
                        = length (data ino))
        by (apply before_pass_length; [exact Hne | reflexivity | lia]).
      rewrite mixed_length; rewrite ?tile_length by exact Hp; rewrite ?Hbefore;
        first [reflexivity | exact Hm].
    - destruct Hres as (off' & [_ Hcontent]).
      eexists _, _, _, _. split; [reflexivity |]. split; [discriminate |].
      split; [exact Hcontent |].
      split; [apply before_pass_length; [exact Hne | reflexivity | lia] |].
      split; [discriminate |]. intros _.
      assert (Hlast : exists p, last extra = Some p).
      { destruct extra as [| b extra] using rev_ind; [discriminate |].
        exists b. apply last_snoc. }
      destruct Hlast as [p Hlast]. exists extra, p.
      split; [exact Hextra |]. split; [exact Hblocks |]. split; [exact Hlast |].
      rewrite Hlen. cbn [before_pass]. f_equal.
      apply nth_lookup_Some.
      rewrite Htab, lookup_app_r by (rewrite fixedPatterns_length; lia).
      rewrite fixedPatterns_length. rewrite last_lookup in Hlast.
      rewrite Hextra in Hlast. exact Hlast. }
  destruct Hbody as (o2 & s2 & l2 & bytes & Hrun & Hfuel2 & Hcontent & Hlen & Hpanic & Hdone).
  unfold defer. rewrite Hrun. unfold bind, do_Close, answered, ret.
  change (file_Close fd s2) with (mem_Close fd s2).
  pose proof (mem_Close_content fd path s2) as Hclose.
  destruct (mem_Close fd s2) as [ec s3]. cbn [snd] in Hclose.
  destruct o2 as [r | msg |]; [| | contradiction].
  - intros [= <- <- <-]. split; [discriminate |]. exists bytes.
    rewrite Hclose. split; [exact Hcontent |]. split; [exact Hlen |].
    split; [discriminate | exact Hdone].
  - intros [= <- <- <-]. split; [discriminate |]. exists bytes.
    rewrite Hclose. split; [exact Hcontent |]. split; [exact Hlen |].
    split; [exact Hpanic | discriminate].
Qed.

(** X12. On MemFS, whatever faults are injected, and with fuel for a block
    and for the file: [gutmannWipe] ends, and however it ends (success,
    error or panic) the file has the length it had; a panic leaves its
    content as it was. *)
Theorem gutmannWipe_keeps_length fuel w path s (old : list byte) :
  content path s = Some old ->
  Z.to_nat BlockSize < fuel -> length old < fuel ->
  outcome_of (gutmannWipe fuel w path s) <> OutOfFuel /\
  length <$> content path (world_of (gutmannWipe fuel w path s))
  = Some (length old) /\
  forall msg, outcome_of (gutmannWipe fuel w path s) = Panic msg ->
              content path (world_of (gutmannWipe fuel w path s)) = Some old.
Proof.
  intros Hold Hfuel Hsize.
  destruct (gutmannWipe fuel w path s) as [[o s'] l] eqn:Hrun.
  destruct (mem_gutmannWipe_any fuel w path s old o s' l Hold Hfuel Hsize Hrun)
    as (Ho & bytes & Hcontent & Hlen & Hpanic & _).
  cbn [outcome_of world_of fst snd].
  split; [exact Ho |]. split.
  - rewrite Hcontent. cbn. rewrite Hlen. reflexivity.
  - intros msg Hmsg. rewrite Hcontent, (Hpanic msg Hmsg). reflexivity.
Qed.


End MemWipeMore.

(** Ten bytes, and pass 2 failing after it wrote four: ten bytes are
    left. *)
Lemma gutmannWipe_keeps_length_witness :
  MemFS.content "f" (MemFS.oneFile "f" abcdefghij 42 (MemFS.write_fails 1 4))
  = Some abcdefghij /\
  (Z.to_nat BlockSize < S (Z.to_nat BlockSize))%nat /\
  (length abcdefghij < S (Z.to_nat BlockSize))%nat /\
  outcome_of interruptedRun <> OutOfFuel /\
  length <$> MemFS.content "f" (world_of interruptedRun)
  = Some (length abcdefghij) /\
  forall msg, outcome_of interruptedRun = Panic msg ->
              MemFS.content "f" (world_of interruptedRun) = Some abcdefghij.
Proof.
  assert (H1 : MemFS.content "f"
                 (MemFS.oneFile "f" abcdefghij 42 (MemFS.write_fails 1 4))
               = Some abcdefghij) by reflexivity.
  assert (H2 : (Z.to_nat BlockSize < S (Z.to_nat BlockSize))%nat) by lia.
  assert (H3 : (length abcdefghij < S (Z.to_nat BlockSize))%nat)
    by (simpl length; rewrite BlockSize_value; lia).
  split; [exact H1 |]. split; [exact H2 |]. split; [exact H3 |].
  exact (gutmannWipe_keeps_length (lib := plainLib) (S (Z.to_nat BlockSize))
           zeroKeyWiper "f" _ abcdefghij H1 H2 H3).
Defined.



(** What the complete run leaves of the ten bytes: ten bytes of the random
    source (which yields zeros here). *)
Example completeRun_content :
  MemFS.content "f" (world_of completeRun)
  = Some [x00; x00; x00; x00; x00; x00; x00; x00; x00; x00].
Proof.
  unfold completeRun, wipeOn, gutmannWipe, gutmannPatterns.
  rewrite gutmannFixed_closed by lia. vm_compute. reflexivity.
Qed.

(** ** The timestamps *)

Section MetadataMore.
Context {W : Type} {os : OS W}.
Implicit Types (w : AdvancedWiper) (path : string) (s : W).

(** The loop of [wipeMetadata]: [n] changes of both times to one random
    whole second each, nothing else that changes a file, and one warning for
    each change that failed. *)
Lemma wipeMetadata_loop_calls w path n : forall (i : Z) s,
  exists s' l rs errs,
    wipeMetadata_loop n w path i s = (Ret tt, s', l) /\
    length rs = n /\ length errs = n /\
    chtimes_calls l = randomTimes path rs errs /\
    mutations l = (fun r => Chtimes path (time_Unix r 0) (time_Unix r 0)) <$> rs /\
    statuses l = metadata_warnings i errs.
Proof.
  induction n as [| n IH]; intros i s.
  - exists s, [], [], []. repeat split; reflexivity.
  - cbn [wipeMetadata_loop]. unfold bind, do_Int63n, do_Chtimes, answered.
    destruct (rand_Int63n 2000000000 s) as [r s1].
    destruct (os_Chtimes path (time_Unix r 0) (time_Unix r 0) s1) as [cerr s2].
    assert (Hst : exists l0,
               match cerr with
               | Some err =>
                   updateStatus w
                     ("⚠️ Metadata change " +:+ dec (i + 1) +:+ " failed: " +:+ err)
               | None => ret tt
               end s2 = (Ret tt, s2, l0) /\ chtimes_calls l0 = [] /\
               mutations l0 = [] /\
               statuses l0 = match cerr with
                             | Some err =>
                                 ["⚠️ Metadata change " +:+ dec (i + 1)
                                  +:+ " failed: " +:+ err]
                             | None => []
                             end).
    { destruct cerr; eexists; repeat split; reflexivity. }
    destruct Hst as (l0 & -> & Hc0 & Hm0 & Hs0).
    destruct (IH (i + 1) s2) as (s3 & l3 & rs & errs & -> & Hrs & Herrs & Hc3 & Hm3 & Hs3).
    eexists s3, _, (r :: rs), (cerr :: errs). split; [reflexivity |].
    split; [simpl; lia |]. split; [simpl; lia |].
    split; [| split].
    + rewrite !chtimes_calls_app, Hc0, Hc3. reflexivity.
    + rewrite !mutations_app, Hm0, Hm3. reflexivity.
    + rewrite !statuses_app, Hs0, Hs3. reflexivity.
Qed.

(** X14. [wipeMetadata] always returns, and returns what its last
    [Chtimes] returned.  It makes eight [Chtimes] calls, all on [path]: seven
    that set both times to one whole second each, then the final one; these
    are its only calls that change a file.  After the heading, its status
    lines are one warning, numbered from 1, for each of the seven that
    failed. *)
Theorem wipeMetadata_calls w path s :
  exists merr s' l rs errs a m,
    wipeMetadata w path s = (Ret merr, s', l) /\
    length rs = 7%nat /\ length errs = 7%nat /\
    chtimes_calls l = randomTimes path rs errs ++ [(path, a, m, merr)] /\
    mutations l
    = ((fun r => Chtimes path (time_Unix r 0) (time_Unix r 0)) <$> rs)
      ++ [Chtimes path a m] /\
    statuses l = "📊 Obfuscating metadata..." :: metadata_warnings 0 errs.
Proof.
  unfold wipeMetadata, bind, updateStatus.
  destruct (wipeMetadata_loop_calls w path 7 0 s)
    as (s1 & l1 & rs & errs & -> & Hrs & Herrs & Hc & Hm & Hs).
  unfold do_Now, do_Chtimes, answered.
  destruct (time_Now s1) as [a s2]. destruct (time_Now s2) as [m s3].
  destruct (os_Chtimes path a m s3) as [merr s4].
  exists merr, s4. eexists. exists rs, errs, a, m.
  split; [reflexivity |]. split; [exact Hrs |]. split; [exact Herrs |].
  split; [| split].
  - rewrite !chtimes_calls_app, Hc. reflexivity.
  - rewrite !mutations_app, Hm. reflexivity.
  - rewrite !statuses_app, Hs. cbn. rewrite app_nil_r. reflexivity.
Qed.

End MetadataMore.

Section MemMetadata.
Import MemFS.
Implicit Types (w : AdvancedWiper) (path : string) (s : world).

Lemma times_only_refl path s : times_only path s s.
Proof. repeat split. Qed.

Lemma times_only_trans path s1 s2 s3 :
  times_only path s1 s2 -> times_only path s2 s3 -> times_only path s1 s3.
Proof.
  intros (H1 & H2 & H3) (H4 & H5 & H6). split; [| split].
  - intros q Hq. rewrite H4, H1 by exact Hq. reflexivity.
  - rewrite H5, H2. reflexivity.
  - rewrite H6, H3. reflexivity.
Qed.

Lemma mem_Chtimes_times_only path (a m : Time) s :
  times_only path s (mem_Chtimes path a m s).2.
Proof.
  unfold mem_Chtimes, attempt.
  destruct (faults s (history s) (Chtimes path a m)); [repeat split |].
  cbn [files]. destruct (files s !! path) as [ino |] eqn:Hf; [| repeat split].
  split; [| split; [| reflexivity]].
  - intros q Hq. cbn. rewrite lookup_insert_ne by congruence. reflexivity.
  - unfold content. cbn. rewrite lookup_insert_eq, Hf. reflexivity.
Qed.

Lemma mem_wipeMetadata_loop_times_only w path n : forall (i : Z) s,
  times_only path s (world_of (wipeMetadata_loop n w path i s)).
Proof.
  induction n as [| n IH]; intros i s; [apply times_only_refl |].
  cbn [wipeMetadata_loop]. unfold bind, do_Int63n, do_Chtimes, answered.
  change (rand_Int63n 2000000000 s) with (mem_Int63n 2000000000 s).
  unfold mem_Int63n at 1.
  match goal with
  | |- context [os_Chtimes path ?t ?t ?s1] =>
      change (os_Chtimes path t t s1) with (mem_Chtimes path t t s1);
      pose proof (mem_Chtimes_times_only path t t s1) as Hc;
      destruct (mem_Chtimes path t t s1) as [cerr s2]
  end.
  cbn [snd] in Hc.
  assert (Hs2 : times_only path s s2) by exact Hc.
  assert (Hst : exists l0,
             match cerr with
             | Some err =>
                 updateStatus w
                   ("⚠️ Metadata change " +:+ dec (i + 1) +:+ " failed: " +:+ err)
             | None => ret tt
             end s2 = (Ret tt, s2, l0)).
  { destruct cerr; eexists; reflexivity. }
  destruct Hst as (l0 & ->).
  specialize (IH (i + 1) s2).
  destruct (wipeMetadata_loop n w path (i + 1) s2) as [[o s3] l3].
  cbn [world_of fst snd] in IH |- *.
  destruct o; cbn [world_of fst snd];
    exact (times_only_trans path s s2 s3 Hs2 IH).
Qed.

Lemma mem_Chtimes_ok path (a m : Time) s :
  (mem_Chtimes path a m s).1 = None ->
  exists ino,
    files (mem_Chtimes path a m s).2 !! path = Some ino /\
    atime ino = a /\ mtime ino = m.
Proof.
  unfold mem_Chtimes, attempt.
  destruct (faults s (history s) (Chtimes path a m)); [discriminate |].
  cbn [files]. destruct (files s !! path) as [ino |]; [| discriminate].
  intros _. eexists. cbn. rewrite lookup_insert_eq. repeat split.
Qed.

(** X15. On MemFS, whatever faults are injected: [wipeMetadata] changes
    no other file and not the content of [path]; when it returns [nil] the
    random times are gone again: the access time is the clock as read first
    and the modification time the clock as read next. *)
Theorem wipeMetadata_times_only w path s :
  (forall q, q <> path ->
     files (world_of (wipeMetadata w path s)) !! q = files s !! q) /\
  content path (world_of (wipeMetadata w path s)) = content path s /\
  (outcome_of (wipeMetadata w path s) = Ret None ->
   exists ino,
     files (world_of (wipeMetadata w path s)) !! path = Some ino /\
     atime ino = clock s /\ mtime ino = clock s + 1).
Proof.
  unfold wipeMetadata, bind, updateStatus.
  pose proof (mem_wipeMetadata_loop_times_only w path 7 0 s) as Hloop.
  destruct (wipeMetadata_loop_run w path 7 0 s) as (s1 & l1 & Hrun & _).
  rewrite Hrun in Hloop |- *. cbn [world_of fst snd] in Hloop.
  unfold do_Now, do_Chtimes, answered.
  change (time_Now s1) with (mem_Now s1).
  destruct (mem_Now s1) as [a s2] eqn:Ha.
  change (time_Now s2) with (mem_Now s2).
  destruct (mem_Now s2) as [m s3] eqn:Hm.
  change (os_Chtimes path a m s3) with (mem_Chtimes path a m s3).
  pose proof (mem_Chtimes_times_only path a m s3) as (Hothers4 & Hcontent4 & _).
  pose proof (mem_Chtimes_ok path a m s3) as Hok.
  destruct (mem_Chtimes path a m s3) as [merr s4].
  cbn [fst snd] in Hothers4, Hcontent4, Hok.
  cbn [world_of outcome_of fst snd].
  unfold mem_Now in Ha, Hm. injection Ha as <- <-. injection Hm as <- <-.
  destruct Hloop as (Hothers & Hcontent & Hclock).
  split; [| split].
  - intros q Hq. rewrite (Hothers4 q Hq). exact (Hothers q Hq).
  - rewrite Hcontent4. exact Hcontent.
  - intros [= ->]. destruct (Hok eq_refl) as (ino & Hino & Hat & Hmt).
    exists ino. split; [exact Hino |]. cbn [clock] in Hat, Hmt.
    rewrite Hat, Hmt, Hclock. split; reflexivity.
Qed.

End MemMetadata.

(** The timestamps of a file last modified at time 42, scrubbed with the
    clock at 100: the content stays, both times end as the clock read them,
    100 and 101. *)
Example wipeMetadata_abc :
  MemFS.files (world_of (wipeMetadata (os := MemFS.memfs) zeroKeyWiper "f"
                           (MemFS.oneFile "f" [x61; x62; x63] 42 MemFS.no_faults)))
    !! "f"
  = Some (MemFS.mkInode [x61; x62; x63] 100 101).
Proof. vm_compute. reflexivity. Qed.

(** ** The removal on MemFS *)

Section MemRemove.
Import MemFS.
Local Open Scope nat_scope.
Implicit Types (w : AdvancedWiper) (path : string) (s : world).









End MemRemove.


(** ** The pipeline as a whole *)

Section PipelineMore.
Context {W : Type} {os : OS W} {lib : Lib}.
Implicit Types (w : AdvancedWiper) (path : string) (s : W).


(** A property of every event of [m] and of every continuation holds of
    every event of [bind m k]. *)
Lemma bind_Forall {A B} (P : event -> Prop) (m : M W A) (k : A -> M W B) s :
  Forall P (log_of (m s)) ->
  (forall a s1, Forall P (log_of (k a s1))) ->
  Forall P (log_of (bind m k s)).
Proof.
  intros Hm Hk. unfold bind. destruct (m s) as [[[a | msg |] s1] l1];
    cbn [log_of snd] in Hm; [| exact Hm | exact Hm].
  specialize (Hk a s1). destruct (k a s1) as [[o s2] l2]. cbn [log_of snd] in Hk |- *.
  apply Forall_app_2; assumption.
Qed.


Lemma answered_Forall {A} (P : event -> Prop) (c : call) (h : W -> A * W)
    (err : A -> option error) s :
  (forall e, P (Called c e)) -> Forall P (log_of (answered c h err s)).
Proof.
  intros Hc. unfold answered. destruct (h s) as [r s']. repeat constructor. apply Hc.
Qed.



Lemma gutmannPatterns_log fuel s : Forall is_random (log_of (gutmannPatterns fuel s)).
Proof.
  unfold gutmannPatterns. apply bind_Forall; [constructor |].
  intros patterns s1. apply gutmannFill_log.
Qed.








End PipelineMore.

Section MemPipeline.
Import MemFS.
Context {lib : Lib}.



End MemPipeline.




(** The names the file went through, and what is left: nothing. *)
Example deletedRun_renames :
  rename_calls (log_of deletedRun)
  = [("f", "f.wipe0", None);
     ("f.wipe0", "f.wipe0.wipe1", None);
     ("f.wipe0.wipe1", "f.wipe0.wipe1.wipe2", None)] /\
  MemFS.files (world_of deletedRun) = ∅.
Proof.
  unfold deletedRun, SecureDeleteAdvanced, gutmannWipe, gutmannPatterns.
  rewrite gutmannFixed_closed by lia. vm_compute. split; reflexivity.
Qed.

(** ** The progress reports *)

Lemma progress_lines_app l1 l2 :
  progress_lines (l1 ++ l2) = progress_lines l1 ++ progress_lines l2.
Proof. apply omap_app. Qed.

Lemma sleep_calls_app l1 l2 : sleep_calls (l1 ++ l2) = sleep_calls l1 ++ sleep_calls l2.
Proof. apply omap_app. Qed.

(** Events that are neither progress lines nor sleeps. *)
Lemma quiet_events (l : list event) :
  Forall (fun ev => match ev with
                    | Progress _ | Called (Sleep _) _ => False
                    | _ => True
                    end) l ->
  progress_lines l = [] /\ sleep_calls l = [].
Proof.
  induction 1 as [| ev l Hev _ IH]; [split; reflexivity |].
  destruct ev as [c err | msg | msg]; [| exact IH | contradiction].
  destruct c; first [exact IH | contradiction].
Qed.

Section Progress.
Context {W : Type} {os : OS W} {lib : Lib}.
Implicit Types (w : AdvancedWiper) (file : File) (s : W).

Lemma overwritePass_quiet fuel w file pattern (fileSize : Z) s :
  progress_lines (log_of (overwritePass fuel w file pattern fileSize s)) = [] /\
  sleep_calls (log_of (overwritePass fuel w file pattern fileSize s)) = [].
Proof.
  apply quiet_events. unfold overwritePass.
  apply bind_Forall; [apply answered_Forall; intros; exact I |].
  intros [off | e] s1; [| constructor].
  eapply Forall_impl; [apply overwritePass_loop_events |].
  intros ev (n & err & ->). exact I.
Qed.

(** The progress report of pass [i + 1]: one line and one sleep of 10 ms
    when the pass reports, nothing otherwise. *)
Lemma reportProgress_lines w (startTime : Time) (n i : Z) s :
  exists times,
    progress_lines (log_of (reportProgress w startTime n i s))
    = (fun k => progress_line n k times) <$> reporting n i 1 /\
    sleep_calls (log_of (reportProgress w startTime n i s))
    = (fun _ => 10 * Millisecond) <$> reporting n i 1.
Proof.
  unfold reportProgress. cbn [reporting].
  destruct ((Z.rem (i + 1) ProgressUpdateInterval =? 0) || (i =? 0) || (i =? n - 1)).
  - unfold bind, do_Now, do_Sleep, updateProgress, answered.
    destruct (time_Now s) as [now s1]. cbn.
    eexists. split; [| reflexivity]. unfold progress_line. reflexivity.
  - exists "". split; reflexivity.
Qed.

(** The pass loop when it returns [nil]: the passes that report are those
    of [reporting], in order, each with one line and one sleep. *)
Lemma gutmannPasses_progress fuel w file (fileSize : Z) (startTime : Time) (n : Z) :
  forall (rest : list (list byte)) (i : Z) s s' l,
    gutmannPasses fuel w file fileSize startTime n i rest s = (Ret None, s', l) ->
    exists times,
      length times = length (reporting n i (length rest)) /\
      progress_lines l
      = zip_with (progress_line n) (reporting n i (length rest)) times /\
      sleep_calls l
      = replicate (length (reporting n i (length rest))) (10 * Millisecond).
Proof.
  induction rest as [| pattern rest IH]; intros i s s' l.
  - intros [= <- <-]. exists []. repeat split; reflexivity.
  - cbn [gutmannPasses]. unfold bind at 1.
    destruct (overwritePass_quiet fuel w file pattern fileSize s) as [Hp1 Hs1].
    destruct (overwritePass fuel w file pattern fileSize s) as [[o1 s1] l1].
    cbn [log_of snd] in Hp1, Hs1.
    destruct o1 as [[e |] | msg |]; [discriminate | | discriminate | discriminate].
    unfold bind at 1. unfold bind at 1. unfold do_Sync, answered.
    destruct (file_Sync file s1) as [serr s2].
    assert (Hst : exists l0,
               match serr with
               | Some err =>
                   updateStatus w
                     ("⚠️ Sync warning pass " +:+ dec (i + 1) +:+ ": " +:+ err)
               | None => ret tt
               end s2 = (Ret tt, s2, l0) /\
               progress_lines l0 = [] /\ sleep_calls l0 = []).
    { destruct serr; eexists; repeat split; reflexivity. }
    destruct Hst as (l0 & -> & Hp0 & Hs0).
    unfold bind at 1.
    destruct (reportProgress_lines w startTime n i s2) as (t & Hp3 & Hs3).
    destruct (reportProgress_run w startTime n i s2) as (s3 & l3 & Hrp & _).
    rewrite Hrp in Hp3, Hs3 |- *. cbn [log_of snd] in Hp3, Hs3.
    specialize (IH (i + 1) s3).
    destruct (gutmannPasses fuel w file fileSize startTime n (i + 1) rest s3)
      as [[o4 s4] l4].
    intros [= -> <- <-].
    destruct (IH s4 l4 eq_refl) as (times & Hlen & Hp4 & Hs4).
    cbn [length reporting] in Hp3, Hs3 |- *.
    change (Called (Sync file) serr :: l0 ++ l3 ++ l4)
      with ([Called (Sync file) serr] ++ l0 ++ l3 ++ l4).
    rewrite !progress_lines_app, !sleep_calls_app, Hp1, Hs1, Hp0, Hs0, Hp3, Hs3, Hp4, Hs4.
    destruct ((Z.rem (i + 1) ProgressUpdateInterval =? 0) || (i =? 0) || (i =? n - 1)).
    + exists (t :: times). cbn. rewrite Hlen. repeat split; reflexivity.
    + exists times. cbn. rewrite Hlen. repeat split; reflexivity.
Qed.

Lemma close_run file s :
  exists ec s', (do_Close file;; ret tt) s = (Ret tt, s', [Called (Close file) ec]).
Proof.
  unfold bind, do_Close, answered, ret. destruct (file_Close file s) as [ec s'].
  exists ec, s'. reflexivity.
Qed.

(** X19. With fuel for a block: when [gutmannWipe] returns [nil] it has
    reported progress on the passes 1, 5, 10, 15, 20, 25, 30 and 35 and on
    no other, with the percentage [k * 100 / 35] for pass [k], and has then
    cleared the progress label; each report is followed by one sleep of
    10 ms. *)
Theorem gutmannWipe_progress fuel w path s s' l :
  (Z.to_nat BlockSize < fuel)%nat ->
  gutmannWipe fuel w path s = (Ret None, s', l) ->
  exists times,
    length times = 8%nat /\
    progress_lines l
    = zip_with (progress_line 35) [1; 5; 10; 15; 20; 25; 30; 35] times ++ [""] /\
    sleep_calls l = replicate 8 (10 * Millisecond).
Proof.
  intros Hfuel.
  unfold gutmannWipe. unfold bind at 1. unfold do_OpenFile, answered.
  destruct (os_OpenFile path O_WRONLY 0 s) as [[file | e] s1]; [| discriminate].
  cbn [res_err]. unfold defer.
  unfold bind at 1. unfold do_FStat, answered.
  destruct (file_Stat file s1) as [[info | e] s2].
  2: { destruct (close_run file s2) as (ec & s6 & Hc).
       intros Hr. cbn in Hr. rewrite Hc in Hr. discriminate Hr. }
  cbn [res_err].
  unfold bind at 1. unfold updateStatus at 1.
  unfold bind at 1. unfold updateStatus at 1.
  unfold bind at 1.
  pose proof (gutmannPatterns_entries fuel s2 Hfuel) as Htable.
  pose proof (gutmannPatterns_log fuel s2) as Hlog.
  unfold ends in Htable.
  destruct (gutmannPatterns fuel s2) as [[[table | msg |] s3] l3];
    cbn [outcome_of log_of fst snd] in Htable, Hlog;
    [| destruct (close_run file s3) as (ec & s6 & Hc);
       intros Hr; cbn in Hr; rewrite Hc in Hr; discriminate Hr
     | contradiction].
  destruct Htable as (Hlen & _ & _).
  unfold bind at 1. unfold updateStatus at 1.
  unfold bind at 1. unfold do_Now, answered.
  destruct (time_Now s3) as [startTime s4].
  unfold bind at 1. rewrite Hlen.
  pose proof (gutmannPasses_progress fuel w file (Size info) startTime
                (Z.of_nat 35) table 0 s4) as Hpasses.
  destruct (gutmannPasses fuel w file (Size info) startTime (Z.of_nat 35) 0 table s4)
    as [[o5 s5] l5].
  destruct o5 as [[e |] | msg |];
    try (destruct (close_run file s5) as (ec & s6 & Hc);
         intros Hr; cbn in Hr; rewrite ?Hc in Hr; discriminate Hr).
  destruct (Hpasses s5 l5 eq_refl) as (times & Htimes & Hp5 & Hs5).
  rewrite Hlen in Htimes, Hp5, Hs5.
  change (reporting (Z.of_nat 35) 0 35) with [1; 5; 10; 15; 20; 25; 30; 35]
    in Htimes, Hp5, Hs5.
  destruct (close_run file s5) as (ec & s6 & Hc).
  intros Hr. cbn in Hr. rewrite Hc in Hr. injection Hr as <- <-.
  exists times. split; [exact Htimes |].
  assert (Hq3 : progress_lines l3 = [] /\ sleep_calls l3 = []).
  { apply quiet_events. eapply Forall_impl; [exact Hlog |].
    intros ev (n & err & ->). exact I. }
  destruct Hq3 as [Hp3 Hs3].
  repeat match goal with
         | |- context [Called ?c ?e :: ?l] =>
             lazymatch l with
             | [] => fail
             | _ => change (Called c e :: l) with ([Called c e] ++ l)
             end
         | |- context [Status ?m :: ?l] =>
             lazymatch l with
             | [] => fail
             | _ => change (Status m :: l) with ([Status m] ++ l)
             end
         end.
  rewrite !progress_lines_app, !sleep_calls_app, Hp3, Hs3, Hp5, Hs5.
  split; cbn; rewrite ?app_nil_r; reflexivity.
Qed.

End Progress.

(** A 10-byte file on a system where nothing fails. *)
Lemma gutmannWipe_progress_witness :
  exists l,
    (Z.to_nat BlockSize < S (Z.to_nat BlockSize))%nat /\
    gutmannWipe (os := scripted (fun _ => None) 10) (lib := plainLib)
      (S (Z.to_nat BlockSize)) zeroKeyWiper "f" tt = (Ret None, tt, l) /\
    exists times,
      length times = 8%nat /\
      progress_lines l
      = zip_with (progress_line 35) [1; 5; 10; 15; 20; 25; 30; 35] times ++ [""] /\
      sleep_calls l = replicate 8 (10 * Millisecond).
Proof.
  assert (H1 : (Z.to_nat BlockSize < S (Z.to_nat BlockSize))%nat) by lia.
  destruct (gutmannWipe_run (os := scripted (fun _ => None) 10) (lib := plainLib)
              (S (Z.to_nat BlockSize)) zeroKeyWiper "f" tt)
    as ([] & l & _ & _ & Hwipe & _).
  { lia. }
  { intros; reflexivity. }
  { intros f s0. exists (mkFileInfo 10 1). split; [reflexivity |].
    simpl Size. rewrite BlockSize_value. lia. }
  { intros; reflexivity. }
  { intros; reflexivity. }
  { intros; reflexivity. }
  exists l. split; [exact H1 |]. split; [exact Hwipe |].
  exact (gutmannWipe_progress (os := scripted (fun _ => None) 10) (lib := plainLib)
           (S (Z.to_nat BlockSize)) zeroKeyWiper "f" tt tt l H1 Hwipe).
Defined.

End Wipe.
